(** * Offline coincidence sorter of the GATE 10 PET scripts

    A shallow embedding of [sort_coincidences] from [coincidence_sorter.py]
    and the properties of its windowed pairing.

    Modelling choices.
    - The branches read from the singles tree are parallel arrays; they are
      kept as parallel lists (one per branch), as in the source, so that the
      lock-step reordering is something to prove and not a by-product of the
      representation.
    - [GlobalTime] is a float64 array.  What depends only on the order of
      the times and on the outcome of the window test is stated on a model
      with exact integer times ([Z], in nanoseconds).  What depends on the
      rounding of [times + offset_ns] is stated on the module [F64], the
      same code on binary64 floats.  The branches that are only carried
      around and compared for equality are [Z].
    - [np.argsort] is library code.  It is a parameter [argsort]; what numpy
      documents for the default kind (the result is a permutation of the
      positions that lists the keys in ascending order, with no promise on
      ties) is the executable predicate [is_argsort], assumed only at the
      array the run really sorts.
    - Indexing an array out of range raises [IndexError]; this is threaded
      through the code with a small error monad.

    The module [F64] holds the driver [main] of the sorter as well.  The
    file goes on with two pieces of the verification scripts: the reader
    of statistics files [read_gate9_stat_file] and the command line of
    [test004_simple_verify.py].  There [int()] and [float()] are
    parameters, a string is the list of its characters, and a file is its
    text. *)

From Stdlib Require Import ZArith List Lia Bool Permutation Sorted.
From Stdlib Require Ascii String PrimFloat.
Import ListNotations.
Local Open Scope Z_scope.

Set Implicit Arguments.

(** ** Exceptions *)

Inductive exn : Type :=
| IndexError.

Inductive outcome (A : Type) : Type :=
| Ok (a : A)
| Raise (e : exn).

Arguments Ok {A} a.
Arguments Raise {A} e.

Definition bind {A B : Type} (c : outcome A) (k : A -> outcome B) : outcome B :=
  match c with
  | Ok a => k a
  | Raise e => Raise e
  end.

Notation "x <- c ;; k" := (bind c (fun x => k))
  (at level 61, c at next level, right associativity).

(** ** Arrays *)

(** [a[k]] for a position [k]. *)
Definition index {A : Type} (a : list A) (k : nat) : outcome A :=
  match nth_error a k with
  | Some x => Ok x
  | None => Raise IndexError
  end.

(** [a[idx]] for an array of positions [idx] (numpy integer-array indexing). *)
Fixpoint take {A : Type} (a : list A) (idx : list nat) : outcome (list A) :=
  match idx with
  | [] => Ok []
  | k :: idx' =>
      x <- index a k ;;
      xs <- take a idx' ;;
      Ok (x :: xs)
  end.

(** ** Data *)

(** The branches of the tree [Singles_main_window]; [RunID] may be absent. *)
Record Branches : Type := mkBranches {
  GlobalTime : list Z;
  EventID : list Z;
  TotalEnergyDeposit : list Z;
  PostPosition_X : list Z;
  PostPosition_Y : list Z;
  PostPosition_Z : list Z;
  PostStepUniqueVolumeID : list Z;
  TrackID : list Z;
  RunID : option (list Z)
}.

(** The local arrays of [sort_coincidences]. *)
Record Arrays : Type := mkArrays {
  times : list Z;
  eventIDs : list Z;
  energies : list Z;
  posX : list Z;
  posY : list Z;
  posZ : list Z;
  volumeIDs : list Z;
  trackIDs : list Z;
  runIDs : list Z
}.

(** One entry of the list [coincidences] (a dict with these 23 keys). *)
Record Coincidence : Type := mkCoincidence {
  time1 : Z;
  time2 : Z;
  eventID1 : Z;
  eventID2 : Z;
  energy1 : Z;
  energy2 : Z;
  globalPosX1 : Z;
  globalPosY1 : Z;
  globalPosZ1 : Z;
  globalPosX2 : Z;
  globalPosY2 : Z;
  globalPosZ2 : Z;
  volumeID1 : Z;
  volumeID2 : Z;
  runID : Z;
  trackID1 : Z;
  trackID2 : Z;
  comptonPhantom1 : Z;
  comptonPhantom2 : Z;
  RayleighPhantom1 : Z;
  RayleighPhantom2 : Z;
  sourceID1 : Z;
  sourceID2 : Z
}.

(** What a run leaves behind: the table [Coincidences] written to the output
    file (rows of the column dict), absent when nothing was found, and the
    returned count. *)
Record Output : Type := mkOutput {
  written : option (list Coincidence);
  returned : nat
}.

(** ** The code *)

(** Extraction of the arrays; a missing [RunID] is [np.zeros(len(times))]. *)
Definition read_branches (b : Branches) : Arrays :=
  {| times := GlobalTime b;
     eventIDs := EventID b;
     energies := TotalEnergyDeposit b;
     posX := PostPosition_X b;
     posY := PostPosition_Y b;
     posZ := PostPosition_Z b;
     volumeIDs := PostStepUniqueVolumeID b;
     trackIDs := TrackID b;
     runIDs := match RunID b with
               | Some r => r
               | None => repeat 0 (length (GlobalTime b))
               end |}.

(** "Sort by time": every array is re-indexed by the same [sort_idx]. *)
Definition sort_by_time (sort_idx : list nat) (a : Arrays) : outcome Arrays :=
  t <- take (times a) sort_idx ;;
  ev <- take (eventIDs a) sort_idx ;;
  en <- take (energies a) sort_idx ;;
  px <- take (posX a) sort_idx ;;
  py <- take (posY a) sort_idx ;;
  pz <- take (posZ a) sort_idx ;;
  vo <- take (volumeIDs a) sort_idx ;;
  tr <- take (trackIDs a) sort_idx ;;
  ru <- take (runIDs a) sort_idx ;;
  Ok {| times := t; eventIDs := ev; energies := en;
        posX := px; posY := py; posZ := pz;
        volumeIDs := vo; trackIDs := tr; runIDs := ru |}.

(** [times_shifted = times + offset_ns]. *)
Definition shift (offset_ns : Z) (ts : list Z) : list Z :=
  map (fun t => t + offset_ns) ts.

(** The dict [coinc] built for the positions [i] and [j]. *)
Definition make_coinc (s : Arrays) (i j : nat) : outcome Coincidence :=
  t1 <- index (times s) i ;;
  t2 <- index (times s) j ;;
  ev1 <- index (eventIDs s) i ;;
  ev2 <- index (eventIDs s) j ;;
  en1 <- index (energies s) i ;;
  en2 <- index (energies s) j ;;
  x1 <- index (posX s) i ;;
  y1 <- index (posY s) i ;;
  z1 <- index (posZ s) i ;;
  x2 <- index (posX s) j ;;
  y2 <- index (posY s) j ;;
  z2 <- index (posZ s) j ;;
  v1 <- index (volumeIDs s) i ;;
  v2 <- index (volumeIDs s) j ;;
  r <- index (runIDs s) i ;;
  tr1 <- index (trackIDs s) i ;;
  tr2 <- index (trackIDs s) j ;;
  Ok {| time1 := t1; time2 := t2;
        eventID1 := ev1; eventID2 := ev2;
        energy1 := en1; energy2 := en2;
        globalPosX1 := x1; globalPosY1 := y1; globalPosZ1 := z1;
        globalPosX2 := x2; globalPosY2 := y2; globalPosZ2 := z2;
        volumeID1 := v1; volumeID2 := v2;
        runID := r;
        trackID1 := tr1; trackID2 := tr2;
        comptonPhantom1 := 0; comptonPhantom2 := 0;
        RayleighPhantom1 := 0; RayleighPhantom2 := 0;
        sourceID1 := 0; sourceID2 := 0 |}.

(** The inner [for j in range(i + 1, n_singles)], over the positions [js]
    still to visit.  Both [break]s return the list as it stands; the last
    branch is the fall-through of the [if]/[elif]. *)
Fixpoint scan_forward (s : Arrays) (times_shifted : list Z)
    (time_window_ns : Z) (i : nat) (t1 : Z) (js : list nat)
    (coincidences : list Coincidence) : outcome (list Coincidence) :=
  match js with
  | [] => Ok coincidences
  | j :: js' =>
      t2 <- index times_shifted j ;;
      let time_diff := Z.abs (t2 - t1) in
      if time_diff <=? time_window_ns then
        vi <- index (volumeIDs s) i ;;
        vj <- index (volumeIDs s) j ;;
        if negb (vi =? vj) then
          coinc <- make_coinc s i j ;;
          Ok (coincidences ++ [coinc])
        else
          scan_forward s times_shifted time_window_ns i t1 js' coincidences
      else if time_diff >? time_window_ns then
        Ok coincidences
      else
        scan_forward s times_shifted time_window_ns i t1 js' coincidences
  end.

(** The outer [while i < n_singles - 1], whose counter [i] runs over [todo]. *)
Fixpoint scan_all (s : Arrays) (times_shifted : list Z)
    (time_window_ns : Z) (n_singles : nat) (todo : list nat)
    (coincidences : list Coincidence) : outcome (list Coincidence) :=
  match todo with
  | [] => Ok coincidences
  | i :: todo' =>
      t1 <- index times_shifted i ;;
      coincidences' <-
        scan_forward s times_shifted time_window_ns i t1
          (seq (i + 1) (n_singles - (i + 1))) coincidences ;;
      scan_all s times_shifted time_window_ns n_singles todo' coincidences'
  end.

(** "Find coincidences" on the sorted arrays: the final list. *)
Definition find_coincidences (s : Arrays) (time_window_ns offset_ns : Z)
  : outcome (list Coincidence) :=
  let times_shifted := shift offset_ns (times s) in
  let n_singles := length (times s) in
  scan_all s times_shifted time_window_ns n_singles
    (seq 0 (n_singles - 1)) [].

(** The end of the function: the table is written only when it is not
    empty, and the count is returned either way. *)
Definition finish (coincidences : list Coincidence) : Output :=
  {| written := match coincidences with
                | [] => None
                | _ :: _ => Some coincidences
                end;
     returned := length coincidences |}.

Section Sorter.

(** [np.argsort], taken as given. *)
Variable argsort : list Z -> list nat.

(** The arrays after the sorting step. *)
Definition sorted_arrays (b : Branches) : outcome Arrays :=
  let a := read_branches b in
  sort_by_time (argsort (times a)) a.

Definition sort_coincidences (b : Branches) (time_window_ns offset_ns : Z)
  : outcome Output :=
  s <- sorted_arrays b ;;
  coincidences <- find_coincidences s time_window_ns offset_ns ;;
  Ok (finish coincidences).

End Sorter.

(** The rows a run emitted. *)
Definition emitted (o : Output) : list Coincidence :=
  match written o with
  | Some cs => cs
  | None => []
  end.

(** ** What is assumed of the input and of [np.argsort] *)

(** Every branch of one tree has one entry per row. *)
Definition well_formed (b : Branches) : bool :=
  let n := length (GlobalTime b) in
  (length (EventID b) =? n)%nat
  && (length (TotalEnergyDeposit b) =? n)%nat
  && (length (PostPosition_X b) =? n)%nat
  && (length (PostPosition_Y b) =? n)%nat
  && (length (PostPosition_Z b) =? n)%nat
  && (length (PostStepUniqueVolumeID b) =? n)%nat
  && (length (TrackID b) =? n)%nat
  && match RunID b with
     | Some r => (length r =? n)%nat
     | None => true
     end.

Fixpoint ascending (l : list Z) : bool :=
  match l with
  | [] => true
  | x :: l' =>
      match l' with
      | [] => true
      | y :: _ => (x <=? y) && ascending l'
      end
  end.

Definition is_permutation_of_range (idx : list nat) (n : nat) : bool :=
  (length idx =? n)%nat
  && forallb (fun k => existsb (Nat.eqb k) idx) (seq 0 n).

(** [idx] is an admissible result of [np.argsort(a)]: a permutation of the
    positions of [a] along which the keys ascend. *)
Definition is_argsort (a : list Z) (idx : list nat) : bool :=
  is_permutation_of_range idx (length a)
  && ascending (map (fun k => nth k a 0) idx).

(** An index sort that meets this contract: an insertion sort on the
    positions, which puts a position after the equal keys already placed. *)
Fixpoint insert_after (a : list Z) (k : nat) (idx : list nat) : list nat :=
  match idx with
  | [] => [k]
  | h :: idx' =>
      if nth k a 0 <? nth h a 0 then k :: h :: idx'
      else h :: insert_after a k idx'
  end.

Definition argsort_ties_kept (a : list Z) : list nat :=
  fold_left (fun idx k => insert_after a k idx) (seq 0 (length a)) [].

(** ** Views used to state the properties *)

(** All nine arrays have [n] entries. *)
Definition aligned (n : nat) (a : Arrays) : Prop :=
  length (times a) = n /\ length (eventIDs a) = n
  /\ length (energies a) = n /\ length (posX a) = n
  /\ length (posY a) = n /\ length (posZ a) = n
  /\ length (volumeIDs a) = n /\ length (trackIDs a) = n
  /\ length (runIDs a) = n.

(** The record at row [p]: one entry of every array. *)
Definition row (a : Arrays) (p : nat) : list Z :=
  [ nth p (times a) 0; nth p (eventIDs a) 0; nth p (energies a) 0;
    nth p (posX a) 0; nth p (posY a) 0; nth p (posZ a) 0;
    nth p (volumeIDs a) 0; nth p (trackIDs a) 0; nth p (runIDs a) 0 ].

Definition rows (a : Arrays) : list (list Z) :=
  map (row a) (seq 0 (length (times a))).

(** The arrays re-indexed by [idx], entry by entry. *)
Definition reindex (idx : list nat) (a : Arrays) : Arrays :=
  {| times := map (fun k => nth k (times a) 0) idx;
     eventIDs := map (fun k => nth k (eventIDs a) 0) idx;
     energies := map (fun k => nth k (energies a) 0) idx;
     posX := map (fun k => nth k (posX a) 0) idx;
     posY := map (fun k => nth k (posY a) 0) idx;
     posZ := map (fun k => nth k (posZ a) 0) idx;
     volumeIDs := map (fun k => nth k (volumeIDs a) 0) idx;
     trackIDs := map (fun k => nth k (trackIDs a) 0) idx;
     runIDs := map (fun k => nth k (runIDs a) 0) idx |}.

(** Stated from the specification (P5): whenever two sorted positions
    [p < q] hold records with the same timestamp, the record at [p] came
    before the record at [q] in the input. *)
Definition ties_keep_order (a : Arrays) (sort_idx : list nat) : Prop :=
  forall p q, (p < q < length sort_idx)%nat ->
    nth (nth p sort_idx 0%nat) (times a) 0
    = nth (nth q sort_idx 0%nat) (times a) 0 ->
    (nth p sort_idx 0 < nth q sort_idx 0)%nat.

(** The distance the scan compares with the window, on the shifted times. *)
Definition time_diff (s : Arrays) (offset_ns : Z) (i j : nat) : Z :=
  Z.abs (nth j (shift offset_ns (times s)) 0
         - nth i (shift offset_ns (times s)) 0).

Definition other_detector (s : Arrays) (i j : nat) : bool :=
  negb (nth i (volumeIDs s) 0 =? nth j (volumeIDs s) 0).

(** [j] may be paired with [i]: inside the window, on another detector. *)
Definition qualifies (s : Arrays) (time_window_ns offset_ns : Z)
    (i j : nat) : bool :=
  (time_diff s offset_ns i j <=? time_window_ns) && other_detector s i j.

(** [j] is the smallest position after [i] that qualifies. *)
Definition least_qualifying (s : Arrays) (time_window_ns offset_ns : Z)
    (i j : nat) : Prop :=
  (i < j < length (times s))%nat
  /\ qualifies s time_window_ns offset_ns i j = true
  /\ forall k, (i < k < j)%nat ->
       qualifies s time_window_ns offset_ns i k = false.

(** The rows [cs] were built at the positions [ps], one after the other. *)
Definition built_at (s : Arrays) (cs : list Coincidence)
    (ps : list (nat * nat)) : Prop :=
  Forall2 (fun c p => make_coinc s (fst p) (snd p) = Ok c) cs ps.

(** The row [c] was built from two positions [i < j] of the sorted arrays
    that passed both tests of the scan on the times [ts]. *)
Definition emitted_from (s : Arrays) (ts : list Z) (time_window_ns : Z)
    (c : Coincidence) : Prop :=
  exists i j t1 t2,
    (i < j)%nat
    /\ index ts i = Ok t1 /\ index ts j = Ok t2
    /\ Z.abs (t2 - t1) <= time_window_ns
    /\ make_coinc s i j = Ok c
    /\ volumeID1 c <> volumeID2 c.

(** Side 1 (resp. side 2) of [c] is the record at row [p] of [a]. *)
Definition side1_of (a : Arrays) (p : nat) (c : Coincidence) : Prop :=
  index (times a) p = Ok (time1 c)
  /\ index (eventIDs a) p = Ok (eventID1 c)
  /\ index (energies a) p = Ok (energy1 c)
  /\ index (posX a) p = Ok (globalPosX1 c)
  /\ index (posY a) p = Ok (globalPosY1 c)
  /\ index (posZ a) p = Ok (globalPosZ1 c)
  /\ index (volumeIDs a) p = Ok (volumeID1 c)
  /\ index (trackIDs a) p = Ok (trackID1 c).

Definition side2_of (a : Arrays) (q : nat) (c : Coincidence) : Prop :=
  index (times a) q = Ok (time2 c)
  /\ index (eventIDs a) q = Ok (eventID2 c)
  /\ index (energies a) q = Ok (energy2 c)
  /\ index (posX a) q = Ok (globalPosX2 c)
  /\ index (posY a) q = Ok (globalPosY2 c)
  /\ index (posZ a) q = Ok (globalPosZ2 c)
  /\ index (volumeIDs a) q = Ok (volumeID2 c)
  /\ index (trackIDs a) q = Ok (trackID2 c).

(** The partner the scan finds for [i] among [js], read off the code. *)
Fixpoint partner (s : Arrays) (time_window_ns offset_ns : Z) (i : nat)
    (js : list nat) : option nat :=
  match js with
  | [] => None
  | j :: js' =>
      if time_diff s offset_ns i j <=? time_window_ns then
        if other_detector s i j then Some j
        else partner s time_window_ns offset_ns i js'
      else None
  end.

Definition pairs_over (s : Arrays) (time_window_ns offset_ns : Z)
    (todo : list nat) : list (nat * nat) :=
  flat_map (fun i =>
    match partner s time_window_ns offset_ns i
            (seq (i + 1) (length (times s) - (i + 1))) with
    | Some j => [(i, j)]
    | None => []
    end) todo.

Definition pairs (s : Arrays) (time_window_ns offset_ns : Z)
  : list (nat * nat) :=
  pairs_over s time_window_ns offset_ns (seq 0 (length (times s) - 1)).

(** ** The naive variant of the scan

    Stated from the specification: the same scan without the early exit on
    [time_diff > time_window_ns]; every [j] from [i + 1] to [n - 1] is
    visited until a pair is emitted. *)
Fixpoint naive_scan_forward (s : Arrays) (times_shifted : list Z)
    (time_window_ns : Z) (i : nat) (t1 : Z) (js : list nat)
    (coincidences : list Coincidence) : outcome (list Coincidence) :=
  match js with
  | [] => Ok coincidences
  | j :: js' =>
      t2 <- index times_shifted j ;;
      let time_diff := Z.abs (t2 - t1) in
      if time_diff <=? time_window_ns then
        vi <- index (volumeIDs s) i ;;
        vj <- index (volumeIDs s) j ;;
        if negb (vi =? vj) then
          coinc <- make_coinc s i j ;;
          Ok (coincidences ++ [coinc])
        else
          naive_scan_forward s times_shifted time_window_ns i t1 js'
            coincidences
      else
        naive_scan_forward s times_shifted time_window_ns i t1 js'
          coincidences
  end.

Fixpoint naive_scan_all (s : Arrays) (times_shifted : list Z)
    (time_window_ns : Z) (n_singles : nat) (todo : list nat)
    (coincidences : list Coincidence) : outcome (list Coincidence) :=
  match todo with
  | [] => Ok coincidences
  | i :: todo' =>
      t1 <- index times_shifted i ;;
      coincidences' <-
        naive_scan_forward s times_shifted time_window_ns i t1
          (seq (i + 1) (n_singles - (i + 1))) coincidences ;;
      naive_scan_all s times_shifted time_window_ns n_singles todo'
        coincidences'
  end.

Definition naive_find_coincidences (s : Arrays) (time_window_ns offset_ns : Z)
  : outcome (list Coincidence) :=
  let times_shifted := shift offset_ns (times s) in
  let n_singles := length (times s) in
  naive_scan_all s times_shifted time_window_ns n_singles
    (seq 0 (n_singles - 1)) [].

Definition naive_sort_coincidences (argsort : list Z -> list nat)
    (b : Branches) (time_window_ns offset_ns : Z) : outcome Output :=
  s <- sorted_arrays argsort b ;;
  coincidences <- naive_find_coincidences s time_window_ns offset_ns ;;
  Ok (finish coincidences).

(** ** Pairing against a translated copy

    Stated from the specification (P4): the unshifted timeline is paired
    against a copy of itself translated by the offset, so the distance
    between a record [i] and a record [j] of the copy is
    [|(time[j] + offset) - time[i]|]. *)
Definition translated_diff (s : Arrays) (offset_ns : Z) (i j : nat) : Z :=
  Z.abs ((nth j (times s) 0 + offset_ns) - nth i (times s) 0).

Definition translated_pairs (s : Arrays) (time_window_ns offset_ns : Z)
  : list (nat * nat) :=
  filter (fun p =>
            negb (fst p =? snd p)%nat
            && (translated_diff s offset_ns (fst p) (snd p)
                <=? time_window_ns)
            && other_detector s (fst p) (snd p))
    (list_prod (seq 0 (length (times s))) (seq 0 (length (times s)))).

(** ** Inputs of the examples *)

Definition singles (rows : list (Z * Z)) : Branches :=
  let n := length rows in
  {| GlobalTime := map snd rows;
     EventID := map Z.of_nat (seq 0 n);
     TotalEnergyDeposit := repeat 511 n;
     PostPosition_X := map fst rows;
     PostPosition_Y := repeat 0 n;
     PostPosition_Z := repeat 0 n;
     PostStepUniqueVolumeID := map fst rows;
     TrackID := repeat 1 n;
     RunID := None |}.

(** (detector, time): the same-detector skip scenario. *)
Definition skip_scenario : Branches :=
  singles [(1, 0); (1, 10); (2, 15)].

(** A true pair 50 ns apart. *)
Definition true_pair : Branches :=
  singles [(1, 0); (2, 50)].

(** Two pairs of records with the same timestamp.  [np.argsort] is called
    with its default kind, which numpy documents as not stable.  Where
    numpy sorts float64 keys with its vectorised quicksort, the index
    vector it returns for the times [5, 5, 3, 3] is [tied_rows_sort_idx]:
    the sorting network exchanges the positions 0 and 3, then 1 and 2, and
    leaves equal keys where they are.  A stable sort returns
    [2; 3; 0; 1]. *)
Definition tied_rows : Branches :=
  singles [(1, 5); (2, 5); (3, 3); (4, 3)].

Definition tied_rows_sort_idx : list nat := [3; 2; 1; 0]%nat.

(** Four singles out of time order, with distinct times. *)
Definition unsorted_rows : Branches :=
  singles [(2, 1080); (1, 0); (1, 1000); (2, 50)].

(** Two records exactly one window apart, and a third just outside. *)
Definition boundary_scenario : Branches :=
  singles [(1, 0); (2, 120); (1, 241)].

(** A single record. *)
Definition lone_single : Branches :=
  singles [(1, 7)].

(** The outputs of the runs used as examples. *)
Definition output_of (r : outcome Output) : Output :=
  match r with
  | Ok o => o
  | Raise _ => finish []
  end.

Definition skip_output : Output :=
  Eval vm_compute in
    output_of (sort_coincidences argsort_ties_kept skip_scenario 120 0).

Definition delayed_output : Output :=
  Eval vm_compute in
    output_of (sort_coincidences argsort_ties_kept true_pair 120 500).

(** ** The sorter on binary64 times

    The same code with [GlobalTime], the energies and the positions as
    binary64 floats, as numpy holds them.  [times + offset_ns] and
    [t2 - t1] round to nearest; the window and the offset are the floats
    the comparison and the addition convert them to.  A comparison with a
    NaN is false, which is the fall-through of the [if]/[elif]. *)
Module F64.

Import PrimFloat.

Record Branches : Type := mkBranches {
  GlobalTime : list float;
  EventID : list Z;
  TotalEnergyDeposit : list float;
  PostPosition_X : list float;
  PostPosition_Y : list float;
  PostPosition_Z : list float;
  PostStepUniqueVolumeID : list Z;
  TrackID : list Z;
  RunID : option (list Z)
}.

Record Arrays : Type := mkArrays {
  times : list float;
  eventIDs : list Z;
  energies : list float;
  posX : list float;
  posY : list float;
  posZ : list float;
  volumeIDs : list Z;
  trackIDs : list Z;
  runIDs : list Z
}.

Record Coincidence : Type := mkCoincidence {
  time1 : float;
  time2 : float;
  eventID1 : Z;
  eventID2 : Z;
  energy1 : float;
  energy2 : float;
  globalPosX1 : float;
  globalPosY1 : float;
  globalPosZ1 : float;
  globalPosX2 : float;
  globalPosY2 : float;
  globalPosZ2 : float;
  volumeID1 : Z;
  volumeID2 : Z;
  runID : Z;
  trackID1 : Z;
  trackID2 : Z;
  comptonPhantom1 : Z;
  comptonPhantom2 : Z;
  RayleighPhantom1 : Z;
  RayleighPhantom2 : Z;
  sourceID1 : Z;
  sourceID2 : Z
}.

Record Output : Type := mkOutput {
  written : option (list Coincidence);
  returned : nat
}.

Definition read_branches (b : Branches) : Arrays :=
  {| times := GlobalTime b;
     eventIDs := EventID b;
     energies := TotalEnergyDeposit b;
     posX := PostPosition_X b;
     posY := PostPosition_Y b;
     posZ := PostPosition_Z b;
     volumeIDs := PostStepUniqueVolumeID b;
     trackIDs := TrackID b;
     runIDs := match RunID b with
               | Some r => r
               | None => repeat 0%Z (length (GlobalTime b))
               end |}.

Definition sort_by_time (sort_idx : list nat) (a : Arrays) : outcome Arrays :=
  t <- take (times a) sort_idx ;;
  ev <- take (eventIDs a) sort_idx ;;
  en <- take (energies a) sort_idx ;;
  px <- take (posX a) sort_idx ;;
  py <- take (posY a) sort_idx ;;
  pz <- take (posZ a) sort_idx ;;
  vo <- take (volumeIDs a) sort_idx ;;
  tr <- take (trackIDs a) sort_idx ;;
  ru <- take (runIDs a) sort_idx ;;
  Ok {| times := t; eventIDs := ev; energies := en;
        posX := px; posY := py; posZ := pz;
        volumeIDs := vo; trackIDs := tr; runIDs := ru |}.

(** [times_shifted = times + offset_ns], entry by entry, rounded. *)
Definition shift (offset_ns : float) (ts : list float) : list float :=
  map (fun t => add t offset_ns) ts.

Definition make_coinc (s : Arrays) (i j : nat) : outcome Coincidence :=
  t1 <- index (times s) i ;;
  t2 <- index (times s) j ;;
  ev1 <- index (eventIDs s) i ;;
  ev2 <- index (eventIDs s) j ;;
  en1 <- index (energies s) i ;;
  en2 <- index (energies s) j ;;
  x1 <- index (posX s) i ;;
  y1 <- index (posY s) i ;;
  z1 <- index (posZ s) i ;;
  x2 <- index (posX s) j ;;
  y2 <- index (posY s) j ;;
  z2 <- index (posZ s) j ;;
  v1 <- index (volumeIDs s) i ;;
  v2 <- index (volumeIDs s) j ;;
  r <- index (runIDs s) i ;;
  tr1 <- index (trackIDs s) i ;;
  tr2 <- index (trackIDs s) j ;;
  Ok {| time1 := t1; time2 := t2;
        eventID1 := ev1; eventID2 := ev2;
        energy1 := en1; energy2 := en2;
        globalPosX1 := x1; globalPosY1 := y1; globalPosZ1 := z1;
        globalPosX2 := x2; globalPosY2 := y2; globalPosZ2 := z2;
        volumeID1 := v1; volumeID2 := v2;
        runID := r;
        trackID1 := tr1; trackID2 := tr2;
        comptonPhantom1 := 0%Z; comptonPhantom2 := 0%Z;
        RayleighPhantom1 := 0%Z; RayleighPhantom2 := 0%Z;
        sourceID1 := 0%Z; sourceID2 := 0%Z |}.

Fixpoint scan_forward (s : Arrays) (times_shifted : list float)
    (time_window_ns : float) (i : nat) (t1 : float) (js : list nat)
    (coincidences : list Coincidence) : outcome (list Coincidence) :=
  match js with
  | [] => Ok coincidences
  | j :: js' =>
      t2 <- index times_shifted j ;;
      let time_diff := abs (sub t2 t1) in
      if leb time_diff time_window_ns then
        vi <- index (volumeIDs s) i ;;
        vj <- index (volumeIDs s) j ;;
        if negb (vi =? vj)%Z then
          coinc <- make_coinc s i j ;;
          Ok (coincidences ++ [coinc])
        else
          scan_forward s times_shifted time_window_ns i t1 js' coincidences
      else if ltb time_window_ns time_diff then
        Ok coincidences
      else
        scan_forward s times_shifted time_window_ns i t1 js' coincidences
  end.

Fixpoint scan_all (s : Arrays) (times_shifted : list float)
    (time_window_ns : float) (n_singles : nat) (todo : list nat)
    (coincidences : list Coincidence) : outcome (list Coincidence) :=
  match todo with
  | [] => Ok coincidences
  | i :: todo' =>
      t1 <- index times_shifted i ;;
      coincidences' <-
        scan_forward s times_shifted time_window_ns i t1
          (seq (i + 1) (n_singles - (i + 1))) coincidences ;;
      scan_all s times_shifted time_window_ns n_singles todo' coincidences'
  end.

Definition find_coincidences (s : Arrays) (time_window_ns offset_ns : float)
  : outcome (list Coincidence) :=
  let times_shifted := shift offset_ns (times s) in
  let n_singles := length (times s) in
  scan_all s times_shifted time_window_ns n_singles
    (seq 0 (n_singles - 1)) [].

Definition finish (coincidences : list Coincidence) : Output :=
  {| written := match coincidences with
                | [] => None
                | _ :: _ => Some coincidences
                end;
     returned := length coincidences |}.

Definition sorted_arrays (argsort : list float -> list nat) (b : Branches)
  : outcome Arrays :=
  let a := read_branches b in
  sort_by_time (argsort (times a)) a.

Definition sort_coincidences (argsort : list float -> list nat)
    (b : Branches) (time_window_ns offset_ns : float) : outcome Output :=
  s <- sorted_arrays argsort b ;;
  coincidences <- find_coincidences s time_window_ns offset_ns ;;
  Ok (finish coincidences).

Definition emitted (o : Output) : list Coincidence :=
  match written o with
  | Some cs => cs
  | None => []
  end.

(** The driver [main]: it looks for the singles file and, when it is
    there, runs the prompt pass (offset 0) and the delayed pass (offset
    500 ns) over it with a 120 ns window.  [None] stands for a missing
    singles file; the report holds the tables left in [coincidences.root]
    and [delay.root] and the two counts printed at the end. *)
Record MainReport : Type := mkMainReport {
  prompt_output : option (list Coincidence);
  delay_output : option (list Coincidence);
  n_prompt : nat;
  n_delay : nat
}.

Definition time_window : float := 120%float.
Definition delay_offset : float := 500%float.

Definition main (argsort : list float -> list nat)
    (singles_file : option Branches) : outcome (option MainReport) :=
  match singles_file with
  | None => Ok None
  | Some b =>
      p <- sort_coincidences argsort b time_window 0%float ;;
      d <- sort_coincidences argsort b time_window delay_offset ;;
      Ok (Some {| prompt_output := written p;
                  delay_output := written d;
                  n_prompt := returned p;
                  n_delay := returned d |})
  end.

(** The two tests of the scan on a pair of times shifted by the offset. *)
Definition window_tests (time_window_ns offset_ns t1 t2 : float)
  : bool * bool :=
  let time_diff := abs (sub (add t2 offset_ns) (add t1 offset_ns)) in
  (leb time_diff time_window_ns, ltb time_window_ns time_diff).

(** On every pair of the times [ts], the tests on the times shifted by the
    offset come out as on the times shifted by 0: the rounding of the
    shift is without effect.  So it is when the additions are exact. *)
Definition offset_harmless (ts : list float)
    (time_window_ns offset_ns : float) : bool :=
  forallb (fun t1 =>
    forallb (fun t2 =>
      let (le1, gt1) := window_tests time_window_ns offset_ns t1 t2 in
      let (le0, gt0) := window_tests time_window_ns 0%float t1 t2 in
      Bool.eqb le1 le0 && Bool.eqb gt1 gt0) ts) ts.

(** The same, as a proposition. *)
Definition harmless (ts : list float) (time_window_ns offset_ns : float)
  : Prop :=
  forall t1 t2, In t1 ts -> In t2 ts ->
    window_tests time_window_ns offset_ns t1 t2
    = window_tests time_window_ns 0%float t1 t2.

(** The test a row has passed when it is emitted: the distance of its two
    times, both shifted, is within the window. *)
Definition passed (time_window_ns offset_ns : float) (c : Coincidence)
  : Prop :=
  leb (abs (sub (add (time2 c) offset_ns) (add (time1 c) offset_ns)))
      time_window_ns = true.

(** An index sort for the examples: insertion, ties kept in place. *)
Fixpoint insert_after (a : list float) (k : nat) (idx : list nat)
  : list nat :=
  match idx with
  | [] => [k]
  | h :: idx' =>
      if ltb (nth k a 0%float) (nth h a 0%float) then k :: h :: idx'
      else h :: insert_after a k idx'
  end.

Definition argsort_ties_kept (a : list float) : list nat :=
  fold_left (fun idx k => insert_after a k idx) (seq 0 (length a)) [].

(** (detector, time) rows for the examples. *)
Definition singles (rows : list (Z * float)) : Branches :=
  let n := length rows in
  {| GlobalTime := map snd rows;
     EventID := map Z.of_nat (seq 0 n);
     TotalEnergyDeposit := repeat 511%float n;
     PostPosition_X := repeat 0%float n;
     PostPosition_Y := repeat 0%float n;
     PostPosition_Z := repeat 0%float n;
     PostStepUniqueVolumeID := map fst rows;
     TrackID := repeat 1%Z n;
     RunID := None |}.

(** A pair exactly one window apart before the shift, and more than one
    window apart after it. *)
#[warnings="-inexact-float"]
Definition pair_lost_by_shift : Branches :=
  singles [(1%Z, 0.2%float); (2%Z, 120.2%float)].

(** A pair more than one window apart before the shift, and exactly one
    window apart after it. *)
#[warnings="-inexact-float"]
Definition pair_won_by_shift : Branches :=
  singles [(1%Z, 72.436%float); (2%Z, 192.43600000000004%float)].

(** A pair with whole-number times, on which the shift is exact. *)
Definition whole_pair : Branches :=
  singles [(1%Z, 0%float); (2%Z, 50%float)].

Definition output_of (r : outcome Output) : Output :=
  match r with
  | Ok o => o
  | Raise _ => finish []
  end.

End F64.

(** The input with its rows taken in the order [pi]. *)
Definition permute_rows (pi : list nat) (b : Branches) : Branches :=
  {| GlobalTime := map (fun k => nth k (GlobalTime b) 0) pi;
     EventID := map (fun k => nth k (EventID b) 0) pi;
     TotalEnergyDeposit := map (fun k => nth k (TotalEnergyDeposit b) 0) pi;
     PostPosition_X := map (fun k => nth k (PostPosition_X b) 0) pi;
     PostPosition_Y := map (fun k => nth k (PostPosition_Y b) 0) pi;
     PostPosition_Z := map (fun k => nth k (PostPosition_Z b) 0) pi;
     PostStepUniqueVolumeID :=
       map (fun k => nth k (PostStepUniqueVolumeID b) 0) pi;
     TrackID := map (fun k => nth k (TrackID b) 0) pi;
     RunID := option_map (fun r => map (fun k => nth k r 0) pi) (RunID b) |}.

(** * The verification scripts

    ** Python strings

    A [str] is the list of its characters, here code points below 256.
    [isspace] is the whitespace [str.strip()] removes in that range. *)
Module Py.

Import Ascii String.

Definition str : Type := list ascii.

Definition lit (s : string) : str := list_ascii_of_string s.

Definition isspace (c : ascii) : bool :=
  let n := nat_of_ascii c in
  ((9 <=? n) && (n <=? 13))%nat || ((28 <=? n) && (n <=? 32))%nat
  || (n =? 133)%nat || (n =? 160)%nat.

Fixpoint lstrip (s : str) : str :=
  match s with
  | [] => []
  | c :: s' => if isspace c then lstrip s' else s
  end.

Definition rstrip (s : str) : str := rev (lstrip (rev s)).

(** [s.strip()] *)
Definition strip (s : str) : str := lstrip (rstrip s).

(** [a == b] *)
Fixpoint str_eqb (a b : str) : bool :=
  match a, b with
  | [], [] => true
  | x :: a', y :: b' => Ascii.eqb x y && str_eqb a' b'
  | _, _ => false
  end.

(** [s.startswith(p)] *)
Fixpoint startswith (p s : str) : bool :=
  match p, s with
  | [], _ => true
  | x :: p', y :: s' => Ascii.eqb x y && startswith p' s'
  | _ :: _, [] => false
  end.

(** [c in s] for a one-character [c]. *)
Definition contains (c : ascii) (s : str) : bool :=
  existsb (Ascii.eqb c) s.

(** [s.split(c, 1)] for a one-character [c] that occurs in [s]: what is
    before its first occurrence and what is after. *)
Fixpoint split_once (c : ascii) (s : str) : str * str :=
  match s with
  | [] => ([], [])
  | x :: s' =>
      if Ascii.eqb x c then ([], s')
      else let (before, after) := split_once c s' in (x :: before, after)
  end.

(** No whitespace at either end. *)
Definition clean (s : str) : bool :=
  match s with
  | [] => true
  | c :: _ => negb (isspace c) && negb (isspace (last s c))
  end.

End Py.

(** ** Reading a statistics file ([read_gate9_stat_file])

    [int()] and [float()] are library code: they are the parameters
    [int_of_str] and [float_of_str], [None] standing for [ValueError];
    [F] is the type of floats and [float_zero] is [0.0]. *)
Module StatFile.

Import Ascii String.

(** What [open(filename, 'r')] hands over of the characters of the file:
    in text mode a carriage return, with the line feed that follows it if
    there is one, is read as a line feed. *)
Fixpoint universal_newlines (text : Py.str) : Py.str :=
  match text with
  | [] => []
  | c :: text' =>
      if Ascii.eqb c "013" then
        match text' with
        | c' :: text'' =>
            if Ascii.eqb c' "010" then "010"%char :: universal_newlines text''
            else "010"%char :: universal_newlines text'
        | [] => ["010"%char]
        end
      else c :: universal_newlines text'
  end.

(** The lines [for line in f] goes through: the text cut after every line
    feed, each line with its line feed, the last one without when the text
    does not end with one. *)
Fixpoint file_lines (text : Py.str) : list Py.str :=
  match text with
  | [] => []
  | c :: text' =>
      if Ascii.eqb c "010" then [c] :: file_lines text'
      else
        match file_lines text' with
        | [] => [[c]]
        | line :: lines => (c :: line) :: lines
        end
  end.

Section Reader.

Variable F : Type.
Variable int_of_str : Py.str -> option Z.
Variable float_of_str : Py.str -> option F.
Variable float_zero : F.

(** What [raw_data] holds: an [int], a [float], or the text itself. *)
Inductive value : Type :=
| PyInt (z : Z)
| PyFloat (x : F)
| PyStr (s : Py.str).

(** A dict with [str] keys, in insertion order. *)
Definition dict : Type := list (Py.str * value).

(** [d[k] = v] *)
Fixpoint dict_set (k : Py.str) (v : value) (d : dict) : dict :=
  match d with
  | [] => [(k, v)]
  | (k', v') :: d' =>
      if Py.str_eqb k k' then (k, v) :: d'
      else (k', v') :: dict_set k v d'
  end.

(** [d.get(k, default)] *)
Fixpoint dict_get (k : Py.str) (default : value) (d : dict) : value :=
  match d with
  | [] => default
  | (k', v') :: d' =>
      if Py.str_eqb k k' then v' else dict_get k default d'
  end.

Record Stats : Type := mkStats {
  runs : value;
  events : value;
  tracks : value;
  steps : value;
  pps : value;
  tps : value;
  sps : value;
  track_types : dict;
  raw_data : dict
}.

(** The [try] block: [float(value)] when the text has a dot, [int(value)]
    otherwise, and the text itself on [ValueError]. *)
Definition convert (text : Py.str) : value :=
  if Py.contains "."%char text then
    match float_of_str text with
    | Some x => PyFloat x
    | None => PyStr text
    end
  else
    match int_of_str text with
    | Some z => PyInt z
    | None => PyStr text
    end.

(** The body of [for line in f], on the dict built so far. *)
Definition read_line (raw : dict) (line : Py.str) : dict :=
  let line := Py.strip line in
  if match line with [] => true | _ :: _ => false end
     || negb (Py.startswith (Py.lit "#") line)
  then raw
  else
    let line := Py.strip (skipn 2 line) in
    if Py.contains "="%char line then
      let (k, v) := Py.split_once "="%char line in
      dict_set (Py.strip k) (convert (Py.strip v)) raw
    else raw.

(** [None] for the file stands for a path that does not exist, and the
    result [None] is the [return None] of that case; [Some text] is a
    file with the characters [text]. *)
Definition read_gate9_stat_file (file : option Py.str) : option Stats :=
  match file with
  | None => None
  | Some text =>
      let raw :=
        fold_left read_line (file_lines (universal_newlines text)) [] in
      Some {| runs := dict_get (Py.lit "NumberOfRun") (PyInt 0) raw;
              events := dict_get (Py.lit "NumberOfEvents") (PyInt 0) raw;
              tracks := dict_get (Py.lit "NumberOfTracks") (PyInt 0) raw;
              steps := dict_get (Py.lit "NumberOfSteps") (PyInt 0) raw;
              pps := dict_get (Py.lit "PPS (Primary per sec)")
                       (PyFloat float_zero) raw;
              tps := dict_get (Py.lit "TPS (Track per sec)")
                       (PyFloat float_zero) raw;
              sps := dict_get (Py.lit "SPS (Step per sec)")
                       (PyFloat float_zero) raw;
              track_types := [];
              raw_data := raw |}
  end.

End Reader.

(** A line of a statistics file as the simulation writes it, and the
    lines a file is made of: such entries, and lines of free text.  Every
    line is written with a line feed at its end, and the file is these
    lines one after the other. *)
Definition stat_line (key text : Py.str) : Py.str :=
  Py.lit "# " ++ key ++ Py.lit " = " ++ text ++ Py.lit (String "010" "").

Inductive file_line : Type :=
| Entry (key text : Py.str)
| FreeText (body : Py.str).

Definition line_text (l : file_line) : Py.str :=
  match l with
  | Entry key text => stat_line key text
  | FreeText body => body ++ ["010"%char]
  end.

Definition file_text (lines : list file_line) : Py.str :=
  List.concat (map line_text lines).

(** Neither a line feed nor a carriage return. *)
Definition one_line (s : Py.str) : bool :=
  negb (Py.contains "010"%char s) && negb (Py.contains "013"%char s).

(** An entry whose key and text a line can carry unchanged (no whitespace
    at their ends, no line break, no [=] in the key, neither empty), or a
    free line, without a line break, whose first character after the
    leading whitespace, if any, is not [#]. *)
Definition plain_line (l : file_line) : bool :=
  match l with
  | Entry key text =>
      Py.clean key && Py.clean text
      && negb (Py.contains "="%char key)
      && match key, text with
         | _ :: _, _ :: _ => true
         | _, _ => false
         end
      && one_line key && one_line text
  | FreeText body =>
      one_line body
      && match Py.lstrip body with
         | [] => true
         | c :: _ => negb (Ascii.eqb c "#")
         end
  end.

(** The text of the last entry of [lines] for [key]. *)
Fixpoint last_text (key : Py.str) (lines : list file_line)
  : option Py.str :=
  match lines with
  | [] => None
  | l :: lines' =>
      match last_text key lines' with
      | Some t => Some t
      | None =>
          match l with
          | Entry k text => if Py.str_eqb key k then Some text else None
          | FreeText _ => None
          end
      end
  end.

(** What a lookup of [key] in the file should give: the last text written
    for it, converted, or the default. *)
Definition looked_up (F : Type) (int_of_str : Py.str -> option Z)
    (float_of_str : Py.str -> option F) (lines : list file_line)
    (key : Py.str) (default : value F) : value F :=
  match last_text key lines with
  | Some text => convert int_of_str float_of_str text
  | None => default
  end.

End StatFile.

(** ** The command line of [test004_simple_verify.py]

    The first part of its [main]: the defaults and the loop over
    [sys.argv[1:]].  [float()] is the parameter [float_of_str] and
    [default_tolerance] is [0.01]. *)
Module Test004.

Import Ascii String.

Inductive raised : Type :=
| ValueError.

Inductive result (A : Type) : Type :=
| Return (a : A)
| Raised (e : raised).

Arguments Return {A} a.
Arguments Raised {A} e.

Section CommandLine.

Variable F : Type.
Variable float_of_str : Py.str -> option F.
Variable default_tolerance : F.

Record Options : Type := mkOptions {
  stat_file : Py.str;
  ref_file : option Py.str;
  tolerance : F;
  track_types_flag : bool
}.

Definition defaults : Options :=
  {| stat_file := Py.lit "stat004_simple.txt";
     ref_file := None;
     tolerance := default_tolerance;
     track_types_flag := false |}.

(** The [while i < len(args)] loop, on [args[i:]]. *)
Fixpoint parse_args (args : list Py.str) (o : Options) : result Options :=
  match args with
  | [] => Return o
  | a :: rest =>
      match rest with
      | v :: rest' =>
          if Py.str_eqb a (Py.lit "--stat") then
            parse_args rest'
              {| stat_file := v; ref_file := ref_file o;
                 tolerance := tolerance o;
                 track_types_flag := track_types_flag o |}
          else if Py.str_eqb a (Py.lit "--ref") then
            parse_args rest'
              {| stat_file := stat_file o; ref_file := Some v;
                 tolerance := tolerance o;
                 track_types_flag := track_types_flag o |}
          else if Py.str_eqb a (Py.lit "--tolerance") then
            match float_of_str v with
            | Some t =>
                parse_args rest'
                  {| stat_file := stat_file o; ref_file := ref_file o;
                     tolerance := t;
                     track_types_flag := track_types_flag o |}
            | None => Raised ValueError
            end
          else if Py.str_eqb a (Py.lit "--track-types") then
            parse_args rest
              {| stat_file := stat_file o; ref_file := ref_file o;
                 tolerance := tolerance o; track_types_flag := true |}
          else parse_args rest o
      | [] =>
          if Py.str_eqb a (Py.lit "--track-types") then
            Return {| stat_file := stat_file o; ref_file := ref_file o;
                      tolerance := tolerance o; track_types_flag := true |}
          else Return o
      end
  end.

(** The options [main] goes on with: the loop from the defaults, then
    the default reference file when none was given. *)
Definition main_options (argv_tail : list Py.str) : result Options :=
  match parse_args argv_tail defaults with
  | Return o =>
      Return {| stat_file := stat_file o;
                ref_file :=
                  match ref_file o with
                  | None => Some (Py.lit "stat004_simple_ref.txt")
                  | Some r => Some r
                  end;
                tolerance := tolerance o;
                track_types_flag := track_types_flag o |}
  | Raised e => Raised e
  end.

(** What a command line is made of. *)
Inductive item : Type :=
| StatOption (file : Py.str)
| RefOption (file : Py.str)
| ToleranceOption (text : Py.str)
| TrackTypes
| Other (word : Py.str).

Definition is_option_word (w : Py.str) : bool :=
  Py.str_eqb w (Py.lit "--stat") || Py.str_eqb w (Py.lit "--ref")
  || Py.str_eqb w (Py.lit "--tolerance")
  || Py.str_eqb w (Py.lit "--track-types").

Definition words (i : item) : list Py.str :=
  match i with
  | StatOption f => [Py.lit "--stat"; f]
  | RefOption f => [Py.lit "--ref"; f]
  | ToleranceOption t => [Py.lit "--tolerance"; t]
  | TrackTypes => [Py.lit "--track-types"]
  | Other w => [w]
  end.

Definition command_line (items : list item) : list Py.str :=
  flat_map words items.

Definition well_formed_item (i : item) : bool :=
  match i with
  | Other w => negb (is_option_word w)
  | _ => true
  end.

(** The effect of the items, one after the other. *)
Fixpoint apply_items (items : list item) (o : Options) : result Options :=
  match items with
  | [] => Return o
  | StatOption f :: items' =>
      apply_items items'
        {| stat_file := f; ref_file := ref_file o;
           tolerance := tolerance o;
           track_types_flag := track_types_flag o |}
  | RefOption f :: items' =>
      apply_items items'
        {| stat_file := stat_file o; ref_file := Some f;
           tolerance := tolerance o;
           track_types_flag := track_types_flag o |}
  | ToleranceOption t :: items' =>
      match float_of_str t with
      | Some x =>
          apply_items items'
            {| stat_file := stat_file o; ref_file := ref_file o;
               tolerance := x;
               track_types_flag := track_types_flag o |}
      | None => Raised ValueError
      end
  | TrackTypes :: items' =>
      apply_items items'
        {| stat_file := stat_file o; ref_file := ref_file o;
           tolerance := tolerance o; track_types_flag := true |}
  | Other _ :: items' => apply_items items' o
  end.

End CommandLine.

End Test004.

(** Stand-ins for [int()] and [float()] on the examples: plain decimal
    digits for the first, digits and dots kept as text for the second. *)
Module Demo.

Import Ascii String.

Definition digit (c : ascii) : option Z :=
  let n := nat_of_ascii c in
  if ((48 <=? n) && (n <=? 57))%nat then Some (Z.of_nat n - 48) else None.

Fixpoint digits (acc : Z) (s : Py.str) : option Z :=
  match s with
  | [] => Some acc
  | c :: s' =>
      match digit c with
      | Some d => digits (10 * acc + d) s'
      | None => None
      end
  end.

Definition int_of_str (s : Py.str) : option Z :=
  match s with
  | [] => None
  | _ :: _ => digits 0 s
  end.

Definition float_of_str (s : Py.str) : option Py.str :=
  match s with
  | [] => None
  | _ :: _ =>
      if forallb (fun c => match digit c with
                           | Some _ => true
                           | None => Ascii.eqb c "."
                           end) s
      then Some s else None
  end.

Definition stat_file_example : list StatFile.file_line :=
  [ StatFile.Entry (Py.lit "NumberOfRun") (Py.lit "1");
    StatFile.FreeText (Py.lit "");
    StatFile.Entry (Py.lit "NumberOfEvents") (Py.lit "5000");
    StatFile.FreeText (Py.lit "  NumberOfTracks = 7");
    StatFile.FreeText (Py.lit "end of the run #1");
    StatFile.Entry (Py.lit "PPS (Primary per sec)") (Py.lit "12.5");
    StatFile.Entry (Py.lit "NumberOfEvents") (Py.lit "6000");
    StatFile.Entry (Py.lit "StartDate") (Py.lit "Mon Jan 1") ].

End Demo.

(** * Proofs *)

(** ** The error monad and array access *)

Lemma bind_Ok_inv (A B : Type) (c : outcome A) (k : A -> outcome B) (y : B) :
  bind c k = Ok y -> exists x, c = Ok x /\ k x = Ok y.
Proof.
  destruct c as [x | e]; simpl; intros H.
  - exists x. split; [reflexivity | exact H].
  - discriminate H.
Qed.

Lemma index_nth (A : Type) (a : list A) (k : nat) (d : A) :
  (k < length a)%nat -> index a k = Ok (nth k a d).
Proof.
  intros Hk. unfold index.
  destruct (nth_error a k) as [x |] eqn:E.
  - f_equal. symmetry. now apply nth_error_nth.
  - apply nth_error_None in E. lia.
Qed.

Lemma index_inv (A : Type) (a : list A) (k : nat) (x d : A) :
  index a k = Ok x -> (k < length a)%nat /\ nth k a d = x.
Proof.
  unfold index. destruct (nth_error a k) as [y |] eqn:E; [| discriminate].
  intros H. injection H as ->. split.
  - apply nth_error_Some. congruence.
  - now apply nth_error_nth.
Qed.

Lemma index_In (A : Type) (a : list A) (k : nat) (x : A) :
  index a k = Ok x -> In x a.
Proof.
  intros H. destruct (index_inv _ _ x H) as [Hk <-]. now apply nth_In.
Qed.

Lemma take_map (A : Type) (a : list A) (idx : list nat) (d : A) :
  Forall (fun k => (k < length a)%nat) idx ->
  take a idx = Ok (map (fun k => nth k a d) idx).
Proof.
  induction 1 as [| k idx Hk _ IH]; simpl.
  - reflexivity.
  - rewrite (index_nth a d Hk). simpl. rewrite IH. reflexivity.
Qed.

Lemma take_inv (A : Type) (a : list A) (idx : list nat) (l : list A) (d : A) :
  take a idx = Ok l ->
  l = map (fun k => nth k a d) idx
  /\ Forall (fun k => (k < length a)%nat) idx.
Proof.
  revert l. induction idx as [| k idx IH]; simpl; intros l H.
  - injection H as <-. split; constructor.
  - apply bind_Ok_inv in H. destruct H as (x & Hx & H).
    apply bind_Ok_inv in H. destruct H as (xs & Hxs & H).
    injection H as <-.
    destruct (index_inv a k d Hx) as [Hk ->].
    destruct (IH _ Hxs) as [-> Hall].
    split; [reflexivity | now constructor].
Qed.

Lemma index_shift (offset_ns : Z) (ts : list Z) (j : nat) :
  index (shift offset_ns ts) j = (t <- index ts j ;; Ok (t + offset_ns)).
Proof.
  unfold index, shift. rewrite nth_error_map.
  destruct (nth_error ts j); reflexivity.
Qed.

Lemma length_shift (offset_ns : Z) (ts : list Z) :
  length (shift offset_ns ts) = length ts.
Proof. apply length_map. Qed.

Lemma nth_shift (offset_ns : Z) (ts : list Z) (j : nat) :
  (j < length ts)%nat ->
  nth j (shift offset_ns ts) 0 = nth j ts 0 + offset_ns.
Proof.
  intros Hj. unfold shift.
  rewrite (nth_indep _ 0 (0 + offset_ns)) by (rewrite length_map; exact Hj).
  apply (map_nth (fun t => t + offset_ns)).
Qed.

Lemma time_diff_unshifted (s : Arrays) (offset_ns : Z) (i j : nat) :
  (i < length (times s))%nat -> (j < length (times s))%nat ->
  time_diff s offset_ns i j = Z.abs (nth j (times s) 0 - nth i (times s) 0).
Proof.
  intros Hi Hj. unfold time_diff. rewrite !nth_shift by assumption.
  f_equal. lia.
Qed.

(** ** The contract of [np.argsort], as propositions *)

Lemma ascending_sorted (l : list Z) :
  ascending l = true -> StronglySorted Z.le l.
Proof.
  intros H. apply Sorted_StronglySorted.
  - intros x y z. apply Z.le_trans.
  - induction l as [| x l IH]; [constructor |].
    destruct l as [| y l].
    + repeat constructor.
    + simpl in H. apply andb_true_iff in H. destruct H as [Hxy Hl].
      constructor; [apply IH; exact Hl |].
      constructor. now apply Z.leb_le.
Qed.


Lemma StronglySorted_nth (l : list Z) (i j : nat) :
  StronglySorted Z.le l -> (i <= j < length l)%nat ->
  nth i l 0 <= nth j l 0.
Proof.
  intros H. revert i j.
  induction H as [| x l Hl IH Hx]; intros i j Hij; simpl in Hij; [lia |].
  destruct i as [| i], j as [| j]; simpl; try lia.
  - rewrite Forall_forall in Hx. apply Hx. apply nth_In. lia.
  - apply IH. lia.
Qed.

Lemma is_permutation_of_range_spec (idx : list nat) (n : nat) :
  is_permutation_of_range idx n = true -> Permutation idx (seq 0 n).
Proof.
  unfold is_permutation_of_range. intros H.
  apply andb_true_iff in H. destruct H as [Hlen Hall].
  apply Nat.eqb_eq in Hlen.
  symmetry. apply NoDup_Permutation_bis.
  - apply seq_NoDup.
  - rewrite length_seq. lia.
  - intros k Hk. rewrite forallb_forall in Hall.
    specialize (Hall k Hk). apply existsb_exists in Hall.
    destruct Hall as (k' & Hin & Heq). apply Nat.eqb_eq in Heq. now subst.
Qed.

Lemma is_argsort_perm (a : list Z) (idx : list nat) :
  is_argsort a idx = true -> Permutation idx (seq 0 (length a)).
Proof.
  unfold is_argsort. intros H. apply andb_true_iff in H.
  apply is_permutation_of_range_spec. tauto.
Qed.

Lemma is_argsort_length (a : list Z) (idx : list nat) :
  is_argsort a idx = true -> length idx = length a.
Proof.
  intros H. apply is_argsort_perm in H. apply Permutation_length in H.
  now rewrite length_seq in H.
Qed.

Lemma is_argsort_bound (a : list Z) (idx : list nat) :
  is_argsort a idx = true -> Forall (fun k => (k < length a)%nat) idx.
Proof.
  intros H. apply is_argsort_perm in H. apply Forall_forall. intros k Hk.
  apply (Permutation_in _ H) in Hk. apply in_seq in Hk. lia.
Qed.

Lemma is_argsort_sorted (a : list Z) (idx : list nat) :
  is_argsort a idx = true ->
  StronglySorted Z.le (map (fun k => nth k a 0) idx).
Proof.
  unfold is_argsort. intros H. apply andb_true_iff in H.
  apply ascending_sorted. tauto.
Qed.

(** ** The sorting step *)

Lemma nth_map_in (A B : Type) (f : A -> B) (l : list A) (k : nat)
    (d : A) (d' : B) :
  (k < length l)%nat -> nth k (map f l) d' = f (nth k l d).
Proof.
  intros Hk. rewrite (nth_indep _ d' (f d)) by (rewrite length_map; exact Hk).
  apply map_nth.
Qed.

Lemma well_formed_aligned (b : Branches) :
  well_formed b = true ->
  aligned (length (GlobalTime b)) (read_branches b).
Proof.
  unfold well_formed, aligned. intros H.
  repeat (apply andb_true_iff in H; destruct H as [H ?]).
  repeat match goal with
         | E : (_ =? _)%nat = true |- _ => apply Nat.eqb_eq in E
         end.
  simpl. repeat (split; [assumption || reflexivity |]).
  destruct (RunID b) as [r |].
  - now apply Nat.eqb_eq.
  - apply repeat_length.
Qed.


Lemma sort_by_time_reindex (n : nat) (idx : list nat) (a : Arrays) :
  aligned n a -> Forall (fun k => (k < n)%nat) idx ->
  sort_by_time idx a = Ok (reindex idx a).
Proof.
  intros (H1 & H2 & H3 & H4 & H5 & H6 & H7 & H8 & H9) Hidx.
  unfold sort_by_time.
  rewrite (take_map (times a) 0) by (rewrite H1; exact Hidx).
  rewrite (take_map (eventIDs a) 0) by (rewrite H2; exact Hidx).
  rewrite (take_map (energies a) 0) by (rewrite H3; exact Hidx).
  rewrite (take_map (posX a) 0) by (rewrite H4; exact Hidx).
  rewrite (take_map (posY a) 0) by (rewrite H5; exact Hidx).
  rewrite (take_map (posZ a) 0) by (rewrite H6; exact Hidx).
  rewrite (take_map (volumeIDs a) 0) by (rewrite H7; exact Hidx).
  rewrite (take_map (trackIDs a) 0) by (rewrite H8; exact Hidx).
  rewrite (take_map (runIDs a) 0) by (rewrite H9; exact Hidx).
  reflexivity.
Qed.

Lemma aligned_reindex (idx : list nat) (a : Arrays) :
  aligned (length idx) (reindex idx a).
Proof. unfold aligned, reindex. simpl. rewrite !length_map. tauto. Qed.

Lemma rows_reindex (idx : list nat) (a : Arrays) :
  rows (reindex idx a) = map (row a) idx.
Proof.
  unfold rows. simpl. rewrite length_map.
  apply (nth_ext _ _ [] (row a 0%nat)).
  - rewrite !length_map. apply length_seq.
  - intros k Hk. rewrite length_map, length_seq in Hk.
    rewrite (nth_map_in _ _ 0%nat) by (rewrite length_seq; exact Hk).
    rewrite seq_nth by exact Hk. rewrite map_nth. simpl.
    unfold row. simpl.
    now rewrite !(nth_map_in _ _ 0%nat 0 Hk).
Qed.

(** The sorting step succeeds on a well-formed input whose [sort_idx] is
    admissible, and yields aligned arrays in ascending time. *)
Lemma sorted_arrays_reindex (argsort : list Z -> list nat) (b : Branches) :
  well_formed b = true ->
  is_argsort (GlobalTime b) (argsort (GlobalTime b)) = true ->
  let s := reindex (argsort (GlobalTime b)) (read_branches b) in
  sorted_arrays argsort b = Ok s
  /\ aligned (length (GlobalTime b)) s
  /\ length (times s) = length (GlobalTime b)
  /\ StronglySorted Z.le (times s).
Proof.
  intros Hwf Harg s.
  assert (Hlen : length (argsort (GlobalTime b)) = length (GlobalTime b))
    by now apply is_argsort_length.
  split; [| split; [| split]].
  - unfold sorted_arrays.
    apply (sort_by_time_reindex (well_formed_aligned b Hwf)).
    now apply is_argsort_bound.
  - rewrite <- Hlen. apply aligned_reindex.
  - subst s. simpl. now rewrite length_map.
  - subst s. simpl. now apply is_argsort_sorted.
Qed.

Lemma shift_sorted (offset_ns : Z) (ts : list Z) :
  StronglySorted Z.le ts -> StronglySorted Z.le (shift offset_ns ts).
Proof.
  induction 1 as [| x l Hl IH Hx]; simpl; constructor.
  - exact IH.
  - unfold shift. apply Forall_map.
    eapply Forall_impl; [| exact Hx]. simpl. intros y Hy. lia.
Qed.

(** ** The scan on aligned arrays *)

Lemma make_coinc_returns (n : nat) (s : Arrays) (i j : nat) :
  aligned n s -> (i < n)%nat -> (j < n)%nat ->
  exists c, make_coinc s i j = Ok c.
Proof.
  intros (H1 & H2 & H3 & H4 & H5 & H6 & H7 & H8 & H9) Hi Hj.
  unfold make_coinc.
  repeat (rewrite (@index_nth Z _ _ 0) by lia; simpl).
  eexists. reflexivity.
Qed.

Lemma make_coinc_inv (s : Arrays) (i j : nat) (c : Coincidence) :
  make_coinc s i j = Ok c ->
  index (times s) i = Ok (time1 c) /\ index (times s) j = Ok (time2 c)
  /\ index (eventIDs s) i = Ok (eventID1 c)
  /\ index (eventIDs s) j = Ok (eventID2 c)
  /\ index (energies s) i = Ok (energy1 c)
  /\ index (energies s) j = Ok (energy2 c)
  /\ index (posX s) i = Ok (globalPosX1 c)
  /\ index (posY s) i = Ok (globalPosY1 c)
  /\ index (posZ s) i = Ok (globalPosZ1 c)
  /\ index (posX s) j = Ok (globalPosX2 c)
  /\ index (posY s) j = Ok (globalPosY2 c)
  /\ index (posZ s) j = Ok (globalPosZ2 c)
  /\ index (volumeIDs s) i = Ok (volumeID1 c)
  /\ index (volumeIDs s) j = Ok (volumeID2 c)
  /\ index (runIDs s) i = Ok (runID c)
  /\ index (trackIDs s) i = Ok (trackID1 c)
  /\ index (trackIDs s) j = Ok (trackID2 c)
  /\ comptonPhantom1 c = 0 /\ comptonPhantom2 c = 0
  /\ RayleighPhantom1 c = 0 /\ RayleighPhantom2 c = 0
  /\ sourceID1 c = 0 /\ sourceID2 c = 0.
Proof.
  unfold make_coinc. intros H.
  repeat (apply bind_Ok_inv in H; destruct H as (? & ? & H)).
  injection H as <-. simpl. repeat split; assumption.
Qed.

Lemma built_at_app (s : Arrays) (cs cs' : list Coincidence)
    (ps ps' : list (nat * nat)) :
  built_at s cs ps -> built_at s cs' ps' -> built_at s (cs ++ cs') (ps ++ ps').
Proof. apply Forall2_app. Qed.


Lemma Forall_seq_lt (a m n : nat) :
  (a + m <= n)%nat -> Forall (fun j => (j < n)%nat) (seq a m).
Proof.
  intros H. apply Forall_forall. intros j Hj. apply in_seq in Hj. lia.
Qed.

Section Scan.

Variables (s : Arrays) (time_window_ns offset_ns : Z).

Hypothesis Hal : aligned (length (times s)) s.

Lemma scan_forward_partner (i : nat) (js : list nat)
    (acc : list Coincidence) :
  (i < length (times s))%nat ->
  Forall (fun j => (j < length (times s))%nat) js ->
  exists cs,
    scan_forward s (shift offset_ns (times s)) time_window_ns i
      (nth i (shift offset_ns (times s)) 0) js acc
    = Ok (acc ++ cs)
    /\ built_at s cs
         match partner s time_window_ns offset_ns i js with
         | Some j => [(i, j)]
         | None => []
         end.
Proof.
  intros Hi Hjs. induction Hjs as [| j js Hj _ IH]; simpl.
  - exists []. rewrite app_nil_r. split; constructor.
  - rewrite (index_nth (shift offset_ns (times s)) 0)
      by (rewrite length_shift; exact Hj).
    simpl. unfold time_diff.
    set (d := Z.abs (nth j (shift offset_ns (times s)) 0
                     - nth i (shift offset_ns (times s)) 0)) in *.
    destruct (d <=? time_window_ns) eqn:Hw.
    + destruct Hal as (_ & _ & _ & _ & _ & _ & Hvol & _).
      rewrite (index_nth (volumeIDs s) 0) by lia.
      rewrite (index_nth (volumeIDs s) 0) by lia.
      simpl. unfold other_detector.
      destruct (negb (nth i (volumeIDs s) 0 =? nth j (volumeIDs s) 0)).
      * destruct (make_coinc_returns Hal Hi Hj) as [c Hc].
        rewrite Hc. simpl. exists [c]. split; [reflexivity |].
        constructor; [exact Hc | constructor].
      * exact IH.
    + apply Z.leb_gt in Hw.
      destruct (d >? time_window_ns) eqn:Hg.
      * exists []. rewrite app_nil_r. split; constructor.
      * rewrite Z.gtb_ltb in Hg. apply Z.ltb_ge in Hg. lia.
Qed.

Lemma scan_all_pairs (todo : list nat) (acc : list Coincidence) :
  Forall (fun i => (i < length (times s))%nat) todo ->
  exists cs,
    scan_all s (shift offset_ns (times s)) time_window_ns
      (length (times s)) todo acc
    = Ok (acc ++ cs)
    /\ built_at s cs (pairs_over s time_window_ns offset_ns todo).
Proof.
  intros Htodo. revert acc.
  induction Htodo as [| i todo Hi _ IH]; intros acc; simpl.
  - exists []. rewrite app_nil_r. split; constructor.
  - rewrite (index_nth (shift offset_ns (times s)) 0)
      by (rewrite length_shift; exact Hi).
    simpl.
    destruct (scan_forward_partner
                (js := seq (i + 1) (length (times s) - (i + 1))) acc Hi)
      as (cs1 & E1 & B1); [apply Forall_seq_lt; lia |].
    rewrite E1. simpl.
    destruct (IH (acc ++ cs1)) as (cs2 & E2 & B2).
    rewrite E2. exists (cs1 ++ cs2). rewrite app_assoc.
    split; [reflexivity |]. now apply built_at_app.
Qed.

Lemma find_coincidences_pairs :
  exists cs,
    find_coincidences s time_window_ns offset_ns = Ok cs
    /\ built_at s cs (pairs s time_window_ns offset_ns).
Proof.
  unfold find_coincidences, pairs.
  destruct (scan_all_pairs (todo := seq 0 (length (times s) - 1)) [])
    as (cs & E & B); [apply Forall_seq_lt; lia |].
  exists cs. split; assumption.
Qed.

End Scan.

(** ** The positions at which rows are emitted *)

Section Pairs.

Variables (s : Arrays) (time_window_ns offset_ns : Z).

Lemma partner_seq_iff (i j : nat) (m a : nat) :
  partner s time_window_ns offset_ns i (seq a m) = Some j <->
  (a <= j < a + m)%nat
  /\ qualifies s time_window_ns offset_ns i j = true
  /\ forall k, (a <= k < j)%nat ->
       time_diff s offset_ns i k <= time_window_ns
       /\ other_detector s i k = false.
Proof.
  revert a. induction m as [| m IH]; intros a; simpl.
  - split; [discriminate | lia].
  - unfold qualifies in *.
    destruct (time_diff s offset_ns i a <=? time_window_ns) eqn:Hw;
      [destruct (other_detector s i a) eqn:Hd |].
    + split.
      * intros H. injection H as <-. rewrite Hw, Hd.
        repeat split; try lia; intros k Hk; lia.
      * intros (Hr & _ & Hbefore).
        destruct (Nat.eq_dec j a) as [-> | Hne]; [reflexivity |].
        destruct (Hbefore a) as [_ Hd']; [lia | congruence].
    + rewrite IH. apply Z.leb_le in Hw. split.
      * intros (Hr & Hq & Hbefore).
        repeat split; try lia; try assumption;
          destruct (Nat.eq_dec k a) as [-> | Hne];
          try assumption; apply Hbefore; lia.
      * intros (Hr & Hq & Hbefore).
        assert (j <> a) by (intros ->; rewrite Hd, andb_false_r in Hq;
                            discriminate).
        repeat split; try lia; try assumption; apply Hbefore; lia.
    + apply Z.leb_gt in Hw. split; [discriminate |].
      intros (Hr & Hq & Hbefore). exfalso.
      destruct (Nat.eq_dec j a) as [-> | Hne].
      * apply andb_true_iff in Hq. destruct Hq as [Hq _].
        apply Z.leb_le in Hq. lia.
      * destruct (Hbefore a) as [Hle _]; lia.
Qed.

Lemma in_pairs_over (todo : list nat) (i j : nat) :
  In (i, j) (pairs_over s time_window_ns offset_ns todo) <->
  In i todo
  /\ partner s time_window_ns offset_ns i
       (seq (i + 1) (length (times s) - (i + 1)))
     = Some j.
Proof.
  unfold pairs_over. rewrite in_flat_map. split.
  - intros (i' & Hin & H).
    destruct (partner s time_window_ns offset_ns i' _) as [j' |] eqn:E;
      simpl in H; [| contradiction].
    destruct H as [H | []]. injection H as -> ->. now split.
  - intros [Hin E]. exists i. split; [exact Hin |].
    rewrite E. now left.
Qed.

Lemma pairs_over_fst (todo : list nat) (i : nat) :
  In i (map fst (pairs_over s time_window_ns offset_ns todo)) -> In i todo.
Proof.
  rewrite in_map_iff. intros ([i' j] & <- & H).
  apply in_pairs_over in H. tauto.
Qed.

Lemma pairs_over_increasing (todo : list nat) :
  StronglySorted lt todo ->
  StronglySorted lt (map fst (pairs_over s time_window_ns offset_ns todo)).
Proof.
  induction 1 as [| i todo Hs IH Hi]; simpl; [constructor |].
  destruct (partner s time_window_ns offset_ns i _) as [j |]; simpl;
    [| exact IH].
  constructor; [exact IH |].
  apply Forall_forall. intros k Hk. apply pairs_over_fst in Hk.
  rewrite Forall_forall in Hi. now apply Hi.
Qed.

Lemma seq_increasing (a m : nat) : StronglySorted lt (seq a m).
Proof.
  revert a. induction m as [| m IH]; intros a; simpl; constructor.
  - apply IH.
  - apply Forall_forall. intros k Hk. apply in_seq in Hk. lia.
Qed.

Lemma pairs_increasing :
  StronglySorted lt (map fst (pairs s time_window_ns offset_ns)).
Proof. apply pairs_over_increasing, seq_increasing. Qed.

(** Every emission position passed both tests of the scan. *)
Lemma in_pairs_qualifies (i j : nat) :
  In (i, j) (pairs s time_window_ns offset_ns) ->
  (i < j < length (times s))%nat
  /\ qualifies s time_window_ns offset_ns i j = true.
Proof.
  unfold pairs. rewrite in_pairs_over, partner_seq_iff.
  intros (_ & Hr & Hq & _). split; [lia | exact Hq].
Qed.

(** From here on the times ascend: the distance from [i] grows with [j],
    and the partner of [i] is the smallest position that qualifies. *)
Hypothesis Hsorted : StronglySorted Z.le (times s).

Lemma time_diff_sorted (i j : nat) :
  (i <= j < length (times s))%nat ->
  time_diff s offset_ns i j = nth j (times s) 0 - nth i (times s) 0.
Proof.
  intros H. rewrite time_diff_unshifted by lia.
  pose proof (@StronglySorted_nth (times s) i j Hsorted H). lia.
Qed.

Lemma time_diff_mono (i j k : nat) :
  (i <= j)%nat -> (j <= k < length (times s))%nat ->
  time_diff s offset_ns i j <= time_diff s offset_ns i k.
Proof.
  intros Hij Hjk. rewrite !time_diff_sorted by lia.
  pose proof (@StronglySorted_nth (times s) j k Hsorted Hjk). lia.
Qed.

Lemma in_pairs_least (i j : nat) :
  In (i, j) (pairs s time_window_ns offset_ns) <->
  least_qualifying s time_window_ns offset_ns i j.
Proof.
  unfold pairs, least_qualifying.
  rewrite in_pairs_over, partner_seq_iff, in_seq. split.
  - intros (_ & Hr & Hq & Hbefore). repeat split; try lia; try exact Hq.
    intros k Hk. unfold qualifies.
    destruct (Hbefore k) as [_ ->]; [lia | apply andb_false_r].
  - intros (Hr & Hq & Hbefore). repeat split; try lia; try exact Hq.
    + apply andb_true_iff in Hq. destruct Hq as [Hq _].
      apply Z.leb_le in Hq.
      pose proof (@time_diff_mono i k j). lia.
    + assert (Hw : (time_diff s offset_ns i k <=? time_window_ns) = true).
      { apply andb_true_iff in Hq. destruct Hq as [Hq _].
        apply Z.leb_le in Hq. apply Z.leb_le.
        pose proof (@time_diff_mono i k j). lia. }
      specialize (Hbefore k). unfold qualifies in Hbefore.
      rewrite Hw in Hbefore. apply Hbefore. lia.
Qed.

End Pairs.

(** ** A whole run on a well-formed input *)

Lemma emitted_finish (cs : list Coincidence) : emitted (finish cs) = cs.
Proof. destruct cs; reflexivity. Qed.

Lemma sort_coincidences_inv (argsort : list Z -> list nat) (b : Branches)
    (time_window_ns offset_ns : Z) (o : Output) :
  sort_coincidences argsort b time_window_ns offset_ns = Ok o ->
  exists s,
    sorted_arrays argsort b = Ok s
    /\ find_coincidences s time_window_ns offset_ns = Ok (emitted o)
    /\ o = finish (emitted o).
Proof.
  unfold sort_coincidences. intros H.
  apply bind_Ok_inv in H. destruct H as (s & Hs & H).
  apply bind_Ok_inv in H. destruct H as (cs & Hcs & H).
  injection H as <-. exists s. rewrite emitted_finish. tauto.
Qed.

Lemma sort_coincidences_pairs (argsort : list Z -> list nat) (b : Branches)
    (time_window_ns offset_ns : Z) :
  well_formed b = true ->
  is_argsort (GlobalTime b) (argsort (GlobalTime b)) = true ->
  exists s o,
    sorted_arrays argsort b = Ok s
    /\ sort_coincidences argsort b time_window_ns offset_ns = Ok o
    /\ o = finish (emitted o)
    /\ length (times s) = length (GlobalTime b)
    /\ StronglySorted Z.le (times s)
    /\ built_at s (emitted o) (pairs s time_window_ns offset_ns).
Proof.
  intros Hwf Harg.
  destruct (sorted_arrays_reindex argsort b Hwf Harg)
    as (Hs & Hal & Hlen & Hsorted).
  set (s := reindex (argsort (GlobalTime b)) (read_branches b)) in *.
  rewrite <- Hlen in Hal.
  destruct (find_coincidences_pairs time_window_ns offset_ns Hal)
    as (cs & Hcs & Hb).
  exists s, (finish cs). unfold sort_coincidences.
  rewrite Hs. simpl. rewrite Hcs. simpl. rewrite emitted_finish.
  repeat split; assumption.
Qed.

(** ** What every emitted row went through, on any input *)

Lemma scan_forward_emitted_from (s : Arrays) (ts : list Z)
    (time_window_ns : Z) (i : nat) (t1 : Z) (js : list nat)
    (acc cs : list Coincidence) :
  index ts i = Ok t1 ->
  Forall (fun j => (i < j)%nat) js ->
  Forall (emitted_from s ts time_window_ns) acc ->
  scan_forward s ts time_window_ns i t1 js acc = Ok cs ->
  Forall (emitted_from s ts time_window_ns) cs.
Proof.
  intros Ht1 Hjs Hacc. induction Hjs as [| j js Hj _ IH]; simpl; intros H.
  - injection H as <-. exact Hacc.
  - apply bind_Ok_inv in H. destruct H as (t2 & Ht2 & H).
    destruct (Z.abs (t2 - t1) <=? time_window_ns) eqn:Hw.
    + apply bind_Ok_inv in H. destruct H as (vi & Hvi & H).
      apply bind_Ok_inv in H. destruct H as (vj & Hvj & H).
      destruct (negb (vi =? vj)) eqn:Hd; [| now apply IH].
      apply bind_Ok_inv in H. destruct H as (c & Hc & H).
      injection H as <-. apply Forall_app. split; [exact Hacc |].
      constructor; [| constructor].
      exists i, j, t1, t2. apply Z.leb_le in Hw.
      repeat split; try assumption.
      apply negb_true_iff, Z.eqb_neq in Hd.
      destruct (make_coinc_inv _ _ _ Hc)
        as (_ & _ & _ & _ & _ & _ & _ & _ & _ & _ & _ & _ & H1 & H2 & _).
      congruence.
    + destruct (Z.abs (t2 - t1) >? time_window_ns).
      * injection H as <-. exact Hacc.
      * now apply IH.
Qed.

Lemma scan_all_emitted_from (s : Arrays) (ts : list Z)
    (time_window_ns : Z) (n : nat) (todo : list nat)
    (acc cs : list Coincidence) :
  Forall (emitted_from s ts time_window_ns) acc ->
  scan_all s ts time_window_ns n todo acc = Ok cs ->
  Forall (emitted_from s ts time_window_ns) cs.
Proof.
  revert acc. induction todo as [| i todo IH]; simpl; intros acc Hacc H.
  - injection H as <-. exact Hacc.
  - apply bind_Ok_inv in H. destruct H as (t1 & Ht1 & H).
    apply bind_Ok_inv in H. destruct H as (acc' & Hacc' & H).
    apply (IH acc'); [| exact H].
    eapply scan_forward_emitted_from; [exact Ht1 | | exact Hacc | exact Hacc'].
    apply Forall_forall. intros j Hj. apply in_seq in Hj. lia.
Qed.

Lemma find_coincidences_emitted_from (s : Arrays)
    (time_window_ns offset_ns : Z) (cs : list Coincidence) :
  find_coincidences s time_window_ns offset_ns = Ok cs ->
  Forall (emitted_from s (shift offset_ns (times s)) time_window_ns) cs.
Proof. apply scan_all_emitted_from. constructor. Qed.

(** ** From the sorted arrays back to the input rows *)

Lemma take_index (A : Type) (a : list A) (idx : list nat) (l : list A)
    (i : nat) (x : A) :
  take a idx = Ok l -> index l i = Ok x ->
  exists p, index idx i = Ok p /\ index a p = Ok x.
Proof.
  revert l i. induction idx as [| k idx IH]; simpl; intros l i H Hx.
  - injection H as <-. destruct i; discriminate Hx.
  - apply bind_Ok_inv in H. destruct H as (y & Hy & H).
    apply bind_Ok_inv in H. destruct H as (ys & Hys & H).
    injection H as <-. destruct i as [| i].
    + exists k. split; [reflexivity |].
      unfold index in Hx. simpl in Hx. congruence.
    + apply (IH ys i Hys Hx).
Qed.

Lemma sort_by_time_fields (idx : list nat) (a s : Arrays) :
  sort_by_time idx a = Ok s ->
  take (times a) idx = Ok (times s)
  /\ take (eventIDs a) idx = Ok (eventIDs s)
  /\ take (energies a) idx = Ok (energies s)
  /\ take (posX a) idx = Ok (posX s)
  /\ take (posY a) idx = Ok (posY s)
  /\ take (posZ a) idx = Ok (posZ s)
  /\ take (volumeIDs a) idx = Ok (volumeIDs s)
  /\ take (trackIDs a) idx = Ok (trackIDs s)
  /\ take (runIDs a) idx = Ok (runIDs s).
Proof.
  unfold sort_by_time. intros H.
  repeat (apply bind_Ok_inv in H; destruct H as (? & ? & H)).
  injection H as <-. simpl. repeat split; assumption.
Qed.


Lemma make_coinc_original (idx : list nat) (a s : Arrays) (i j : nat)
    (c : Coincidence) :
  sort_by_time idx a = Ok s ->
  make_coinc s i j = Ok c ->
  exists p q,
    index idx i = Ok p /\ index idx j = Ok q
    /\ side1_of a p c /\ side2_of a q c
    /\ index (runIDs a) p = Ok (runID c).
Proof.
  intros Hs Hc.
  destruct (sort_by_time_fields _ _ Hs)
    as (F1 & F2 & F3 & F4 & F5 & F6 & F7 & F8 & F9).
  destruct (make_coinc_inv _ _ _ Hc)
    as (C1 & C2 & C3 & C4 & C5 & C6 & C7 & C8 & C9 & C10 & C11 & C12
        & C13 & C14 & C15 & C16 & C17 & _).
  destruct (take_index _ _ _ F1 C1) as (p & Hp & T1).
  destruct (take_index _ _ _ F1 C2) as (q & Hq & T2).
  exists p, q. unfold side1_of, side2_of.
  repeat match goal with
         | F : take ?x idx = Ok ?l, C : index ?l _ = Ok _ |- _ =>
             let p' := fresh "p" in
             let E := fresh "E" in
             destruct (take_index _ _ _ F C) as (p' & E & ?);
             first [ rewrite Hp in E | rewrite Hq in E ];
             injection E as <-; clear C
         end.
  repeat split; assumption.
Qed.

(** ** The early exit against the naive scan *)

Section EarlyExit.

Variables (s : Arrays) (time_window_ns offset_ns : Z).

Hypothesis Hsorted : StronglySorted Z.le (times s).

(** Past the window nothing is emitted, however far the naive scan goes. *)
Lemma naive_scan_forward_outside (i : nat) (js : list nat)
    (acc : list Coincidence) :
  Forall (fun j => (j < length (times s))%nat
                   /\ time_window_ns < time_diff s offset_ns i j) js ->
  naive_scan_forward s (shift offset_ns (times s)) time_window_ns i
    (nth i (shift offset_ns (times s)) 0) js acc
  = Ok acc.
Proof.
  induction 1 as [| j js [Hj Hout] _ IH]; simpl; [reflexivity |].
  rewrite (index_nth (shift offset_ns (times s)) 0)
    by (rewrite length_shift; exact Hj).
  simpl. unfold time_diff in Hout.
  apply Z.leb_gt in Hout. rewrite Hout. exact IH.
Qed.

Lemma naive_scan_forward_same (i : nat) (m a : nat)
    (acc : list Coincidence) :
  (i < a)%nat -> (a + m <= length (times s))%nat ->
  naive_scan_forward s (shift offset_ns (times s)) time_window_ns i
    (nth i (shift offset_ns (times s)) 0) (seq a m) acc
  = scan_forward s (shift offset_ns (times s)) time_window_ns i
      (nth i (shift offset_ns (times s)) 0) (seq a m) acc.
Proof.
  revert a. induction m as [| m IH]; intros a Hia Ham; simpl;
    [reflexivity |].
  rewrite (index_nth (shift offset_ns (times s)) 0)
    by (rewrite length_shift; lia).
  simpl.
  pose proof (fun j => @time_diff_mono s offset_ns Hsorted i a j) as Hm.
  unfold time_diff at 1 in Hm.
  set (d := Z.abs (nth a (shift offset_ns (times s)) 0
                   - nth i (shift offset_ns (times s)) 0)) in *.
  destruct (d <=? time_window_ns) eqn:Hw.
  - destruct (index (volumeIDs s) i) as [vi | e]; simpl; [| reflexivity].
    destruct (index (volumeIDs s) a) as [va | e]; simpl; [| reflexivity].
    destruct (negb (vi =? va)); [reflexivity |]. apply IH; lia.
  - apply Z.leb_gt in Hw.
    assert (Hg : (d >? time_window_ns) = true)
      by (rewrite Z.gtb_ltb; now apply Z.ltb_lt).
    rewrite Hg. apply naive_scan_forward_outside.
    apply Forall_forall. intros j Hj. apply in_seq in Hj.
    split; [lia |]. specialize (Hm j). lia.
Qed.

Lemma naive_scan_all_same (todo : list nat) (acc : list Coincidence) :
  naive_scan_all s (shift offset_ns (times s)) time_window_ns
    (length (times s)) todo acc
  = scan_all s (shift offset_ns (times s)) time_window_ns
      (length (times s)) todo acc.
Proof.
  revert acc. induction todo as [| i todo IH]; intros acc; simpl;
    [reflexivity |].
  destruct (index (shift offset_ns (times s)) i) as [t1 | e] eqn:Hi; simpl;
    [| reflexivity].
  destruct (index_inv _ _ 0 Hi) as [Hlt <-].
  rewrite length_shift in Hlt.
  rewrite naive_scan_forward_same by lia.
  destruct (scan_forward s _ time_window_ns i _ _ acc); simpl;
    [apply IH | reflexivity].
Qed.

Lemma naive_find_coincidences_same :
  naive_find_coincidences s time_window_ns offset_ns
  = find_coincidences s time_window_ns offset_ns.
Proof. apply naive_scan_all_same. Qed.

End EarlyExit.

(** ** The index sort of small examples *)

Lemma argsort_true_pair (idx : list nat) :
  is_argsort (GlobalTime true_pair) idx = true -> idx = [0; 1]%nat.
Proof.
  intros H. pose proof (is_argsort_length _ _ H) as L.
  destruct idx as [| x [| y [| z idx]]]; try discriminate L.
  destruct x as [| [| x]]; destruct y as [| [| y]];
    try discriminate H; reflexivity.
Qed.

Lemma argsort_skip_scenario (idx : list nat) :
  is_argsort (GlobalTime skip_scenario) idx = true -> idx = [0; 1; 2]%nat.
Proof.
  intros H. pose proof (is_argsort_length _ _ H) as L.
  destruct idx as [| x [| y [| z [| w idx]]]]; try discriminate L.
  destruct x as [| [| [| x]]]; destruct y as [| [| [| y]]];
    destruct z as [| [| [| z]]]; try discriminate H; reflexivity.
Qed.

(** ** Every emitted row, traced *)

Lemma sort_coincidences_emitted (argsort : list Z -> list nat) (b : Branches)
    (time_window_ns offset_ns : Z) (o : Output) :
  sort_coincidences argsort b time_window_ns offset_ns = Ok o ->
  exists s,
    sorted_arrays argsort b = Ok s
    /\ Forall (emitted_from s (shift offset_ns (times s)) time_window_ns)
         (emitted o).
Proof.
  intros H. apply sort_coincidences_inv in H.
  destruct H as (s & Hs & Hf & _). exists s. split; [exact Hs |].
  now apply find_coincidences_emitted_from.
Qed.

Lemma index_repeat (A : Type) (x y : A) (n p : nat) :
  index (repeat x n) p = Ok y -> y = x.
Proof.
  intros H. destruct (index_inv _ _ x H) as [Hp <-].
  apply (repeat_spec n x). apply nth_In. exact Hp.
Qed.

Lemma built_at_nil (s : Arrays) (cs : list Coincidence) :
  built_at s cs [] -> cs = [].
Proof. intros H. inversion H. reflexivity. Qed.

(** ** The sorter on binary64 times *)

Section Float64.

Import PrimFloat.

Lemma index_map (A B : Type) (f : A -> B) (a : list A) (k : nat) :
  index (map f a) k = (x <- index a k ;; Ok (f x)).
Proof.
  unfold index. rewrite nth_error_map.
  destruct (nth_error a k); reflexivity.
Qed.

Lemma index_shift64 (offset_ns : float) (ts : list float) (j : nat) :
  index (F64.shift offset_ns ts) j
  = (t <- index ts j ;; Ok (add t offset_ns)).
Proof. apply index_map. Qed.

Lemma take_In (A : Type) (a : list A) (idx : list nat) (l : list A) (x : A) :
  take a idx = Ok l -> In x l -> In x a.
Proof.
  revert l. induction idx as [| k idx IH]; simpl; intros l H Hx.
  - injection H as <-. destruct Hx.
  - apply bind_Ok_inv in H. destruct H as (y & Hy & H).
    apply bind_Ok_inv in H. destruct H as (ys & Hys & H).
    injection H as <-. destruct Hx as [<- | Hx].
    + eapply index_In. exact Hy.
    + eapply IH; [exact Hys | exact Hx].
Qed.

Lemma sorted_arrays_times (argsort : list float -> list nat)
    (b : F64.Branches) (s : F64.Arrays) :
  F64.sorted_arrays argsort b = Ok s ->
  take (F64.GlobalTime b) (argsort (F64.GlobalTime b)) = Ok (F64.times s).
Proof.
  unfold F64.sorted_arrays, F64.sort_by_time. simpl. intros H.
  apply bind_Ok_inv in H. destruct H as (t & Ht & H).
  repeat (apply bind_Ok_inv in H; destruct H as (? & _ & H)).
  injection H as <-. exact Ht.
Qed.

Lemma make_coinc_times (s : F64.Arrays) (i j : nat) (c : F64.Coincidence) :
  F64.make_coinc s i j = Ok c ->
  index (F64.times s) i = Ok (F64.time1 c)
  /\ index (F64.times s) j = Ok (F64.time2 c).
Proof.
  unfold F64.make_coinc. intros H.
  apply bind_Ok_inv in H. destruct H as (t1 & H1 & H).
  apply bind_Ok_inv in H. destruct H as (t2 & H2 & H).
  repeat (apply bind_Ok_inv in H; destruct H as (? & _ & H)).
  injection H as <-. split; assumption.
Qed.

Lemma scan_forward_passed (s : F64.Arrays) (time_window_ns offset_ns : float)
    (i : nat) (ti : float) (js : list nat) (acc cs : list F64.Coincidence) :
  index (F64.times s) i = Ok ti ->
  F64.scan_forward s (F64.shift offset_ns (F64.times s)) time_window_ns i
    (add ti offset_ns) js acc = Ok cs ->
  Forall (F64.passed time_window_ns offset_ns) acc ->
  Forall (F64.passed time_window_ns offset_ns) cs.
Proof.
  intros Hi. induction js as [| j js IH]; simpl; intros H Hacc.
  - injection H as <-. exact Hacc.
  - rewrite index_shift64 in H.
    destruct (index (F64.times s) j) as [tj | e] eqn:Hj; simpl in H;
      [| discriminate H].
    destruct (leb (abs (sub (add tj offset_ns) (add ti offset_ns)))
                time_window_ns) eqn:Hle.
    + apply bind_Ok_inv in H. destruct H as (vi & _ & H).
      apply bind_Ok_inv in H. destruct H as (vj & _ & H).
      destruct (negb (vi =? vj)%Z).
      * apply bind_Ok_inv in H. destruct H as (c & Hc & H).
        injection H as <-. apply Forall_app. split; [exact Hacc |].
        constructor; [| constructor].
        destruct (make_coinc_times _ _ _ Hc) as [C1 C2].
        rewrite Hi in C1. rewrite Hj in C2.
        injection C1 as C1. injection C2 as C2.
        unfold F64.passed. rewrite <- C1, <- C2. exact Hle.
      * apply IH; assumption.
    + destruct (ltb time_window_ns
                  (abs (sub (add tj offset_ns) (add ti offset_ns)))).
      * injection H as <-. exact Hacc.
      * apply IH; assumption.
Qed.

Lemma scan_all_passed (s : F64.Arrays) (time_window_ns offset_ns : float)
    (n : nat) (todo : list nat) (acc cs : list F64.Coincidence) :
  F64.scan_all s (F64.shift offset_ns (F64.times s)) time_window_ns n todo acc
  = Ok cs ->
  Forall (F64.passed time_window_ns offset_ns) acc ->
  Forall (F64.passed time_window_ns offset_ns) cs.
Proof.
  revert acc. induction todo as [| i todo IH]; simpl; intros acc H Hacc.
  - injection H as <-. exact Hacc.
  - rewrite index_shift64 in H.
    destruct (index (F64.times s) i) as [ti | e] eqn:Hi; simpl in H;
      [| discriminate H].
    apply bind_Ok_inv in H. destruct H as (acc' & Hf & H).
    apply (IH _ H). eapply scan_forward_passed; eassumption.
Qed.

(** With a harmless offset the scan goes as without offset. *)
Lemma offset_harmless_spec (ts : list float)
    (time_window_ns offset_ns : float) :
  F64.offset_harmless ts time_window_ns offset_ns = true ->
  F64.harmless ts time_window_ns offset_ns.
Proof.
  unfold F64.offset_harmless. intros H t1 t2 H1 H2.
  rewrite forallb_forall in H. specialize (H t1 H1).
  rewrite forallb_forall in H. specialize (H t2 H2).
  destruct (F64.window_tests time_window_ns offset_ns t1 t2) as [le1 gt1].
  destruct (F64.window_tests time_window_ns 0 t1 t2) as [le0 gt0].
  apply andb_true_iff in H. destruct H as [Hle Hgt].
  apply eqb_prop in Hle. apply eqb_prop in Hgt. congruence.
Qed.

Lemma scan_forward_harmless (s : F64.Arrays) (ts : list float)
    (time_window_ns offset_ns : float) (i : nat) (t1 : float)
    (js : list nat) (acc : list F64.Coincidence) :
  F64.harmless ts time_window_ns offset_ns -> In t1 ts ->
  F64.scan_forward s (F64.shift offset_ns ts) time_window_ns i
    (add t1 offset_ns) js acc
  = F64.scan_forward s (F64.shift 0 ts) time_window_ns i (add t1 0) js acc.
Proof.
  intros Hh H1. induction js as [| j js IH]; simpl; [reflexivity |].
  rewrite !index_shift64.
  destruct (index ts j) as [t2 | e] eqn:Hj; simpl; [| reflexivity].
  pose proof (Hh t1 t2 H1 (index_In _ _ Hj)) as E.
  unfold F64.window_tests in E. injection E as -> ->.
  rewrite IH. reflexivity.
Qed.

Lemma scan_all_harmless (s : F64.Arrays) (ts : list float)
    (time_window_ns offset_ns : float) (n : nat) (todo : list nat)
    (acc : list F64.Coincidence) :
  F64.harmless ts time_window_ns offset_ns ->
  F64.scan_all s (F64.shift offset_ns ts) time_window_ns n todo acc
  = F64.scan_all s (F64.shift 0 ts) time_window_ns n todo acc.
Proof.
  intros Hh. revert acc. induction todo as [| i todo IH]; intros acc; simpl;
    [reflexivity |].
  rewrite !index_shift64.
  destruct (index ts i) as [t1 | e] eqn:Hi; simpl; [| reflexivity].
  rewrite (@scan_forward_harmless s ts time_window_ns offset_ns i t1 _ acc Hh
             (index_In _ _ Hi)).
  destruct (F64.scan_forward s (F64.shift 0 ts) time_window_ns i (add t1 0)
              _ acc); simpl; [apply IH | reflexivity].
Qed.

Lemma sort_coincidences_harmless (argsort : list float -> list nat)
    (b : F64.Branches) (time_window_ns offset_ns : float) :
  F64.offset_harmless (F64.GlobalTime b) time_window_ns offset_ns = true ->
  F64.sort_coincidences argsort b time_window_ns offset_ns
  = F64.sort_coincidences argsort b time_window_ns 0.
Proof.
  intros H. apply offset_harmless_spec in H.
  unfold F64.sort_coincidences.
  destruct (F64.sorted_arrays argsort b) as [s | e] eqn:Hs; simpl;
    [| reflexivity].
  unfold F64.find_coincidences.
  rewrite (@scan_all_harmless s (F64.times s) time_window_ns offset_ns);
    [reflexivity |].
  intros t1 t2 H1 H2. apply H.
  - eapply take_In; [apply sorted_arrays_times; exact Hs | exact H1].
  - eapply take_In; [apply sorted_arrays_times; exact Hs | exact H2].
Qed.

Lemma sort_coincidences_passed (argsort : list float -> list nat)
    (b : F64.Branches) (time_window_ns offset_ns : float) (o : F64.Output) :
  F64.sort_coincidences argsort b time_window_ns offset_ns = Ok o ->
  Forall (F64.passed time_window_ns offset_ns) (F64.emitted o).
Proof.
  unfold F64.sort_coincidences. intros H.
  apply bind_Ok_inv in H. destruct H as (s & _ & H).
  apply bind_Ok_inv in H. destruct H as (cs & Hcs & H).
  injection H as <-.
  assert (E : F64.emitted (F64.finish cs) = cs) by (destruct cs; reflexivity).
  rewrite E. unfold F64.find_coincidences in Hcs.
  eapply scan_all_passed; [exact Hcs | constructor].
Qed.

End Float64.

(** ** The scenarios of the specification, run *)

Example four_singles_scenario :
  map (fun c => (time1 c, time2 c))
    (emitted (output_of
       (sort_coincidences argsort_ties_kept
          (singles [(1, 0); (2, 50); (1, 1000); (2, 1080)]) 120 0)))
  = [(0, 50); (1000, 1080)].
Proof. reflexivity. Qed.

Example boundary_scenario_run :
  map (fun c => (time1 c, time2 c))
    (emitted (output_of
       (sort_coincidences argsort_ties_kept boundary_scenario 120 0)))
  = [(0, 120)].
Proof. reflexivity. Qed.

Example unsorted_input_run :
  map (fun c => (time1 c, time2 c))
    (emitted (output_of
       (sort_coincidences argsort_ties_kept
          (singles [(2, 1080); (1, 0); (1, 1000); (2, 50)]) 120 500)))
  = [(0, 50); (1000, 1080)].
Proof. reflexivity. Qed.

(** * The claims *)

(** C1 (the code departs from it).  The claim: a run with offset [Δ] pairs
    the unshifted timeline against a copy translated by [Δ], so that a
    nonzero [Δ] decorrelates true pairs, and the emitted fields are the
    unshifted values.  On the true pair (detector 1 at 0 ns, detector 2 at
    50 ns) with a 120 ns window and a 500 ns offset, pairing against the
    translated copy finds nothing (the distances are 550 and 450), yet the
    run emits the pair, with its unshifted times 0 and 50, exactly as the
    run without offset does. *)
Theorem C1_delayed_run_emits_true_pair (argsort : list Z -> list nat) :
  is_argsort (GlobalTime true_pair) (argsort (GlobalTime true_pair)) = true ->
  sort_coincidences argsort true_pair 120 500 = Ok delayed_output
  /\ sort_coincidences argsort true_pair 120 0 = Ok delayed_output
  /\ map (fun c => (time1 c, time2 c)) (emitted delayed_output) = [(0, 50)]
  /\ translated_pairs (read_branches true_pair) 120 500 = [].
Proof.
  intros H. apply argsort_true_pair in H.
  unfold sort_coincidences, sorted_arrays.
  change (times (read_branches true_pair)) with (GlobalTime true_pair).
  rewrite H. repeat split; reflexivity.
Qed.

Lemma C1_delayed_run_emits_true_pair_witness :
  sort_coincidences argsort_ties_kept true_pair 120 500 = Ok delayed_output
  /\ sort_coincidences argsort_ties_kept true_pair 120 0 = Ok delayed_output
  /\ map (fun c => (time1 c, time2 c)) (emitted delayed_output) = [(0, 50)]
  /\ translated_pairs (read_branches true_pair) 120 500 = [].
Proof.
  apply (C1_delayed_run_emits_true_pair argsort_ties_kept). reflexivity.
Defined.

Section OffsetAndRounding.

Import PrimFloat.

(** C2 (as stated it fails).  The times are binary64 numbers and
    [times + offset_ns] rounds, so the shift does not cancel in the
    distance of two shifted times.  With a 120 ns window, the singles at
    0.2 and 120.2 (two detectors) are paired by the run with offset 0 and
    not by the run with offset 500; the singles at 72.436 and
    192.43600000000004 are paired by the run with offset 500 and not by
    the run with offset 0, and the distance of the unshifted times of
    that row fails the window test.  In both inputs the times ascend, so
    the index sort returns the positions in their order. *)
Lemma C2_offset_changes_rows :
  F64.argsort_ties_kept (F64.GlobalTime F64.pair_lost_by_shift) = [0; 1]%nat
  /\ (exists c,
        F64.sort_coincidences F64.argsort_ties_kept F64.pair_lost_by_shift
          120 0 = Ok (F64.finish [c]))
  /\ F64.sort_coincidences F64.argsort_ties_kept F64.pair_lost_by_shift
       120 500 = Ok (F64.finish [])
  /\ F64.argsort_ties_kept (F64.GlobalTime F64.pair_won_by_shift)
     = [0; 1]%nat
  /\ F64.sort_coincidences F64.argsort_ties_kept F64.pair_won_by_shift
       120 0 = Ok (F64.finish [])
  /\ (exists c,
        F64.sort_coincidences F64.argsort_ties_kept F64.pair_won_by_shift
          120 500 = Ok (F64.finish [c])
        /\ leb (abs (sub (F64.time2 c) (F64.time1 c))) 120 = false).
Proof.
  split; [reflexivity |]. split; [eexists; reflexivity |].
  split; [reflexivity |]. split; [reflexivity |].
  split; [reflexivity |]. eexists. split; reflexivity.
Qed.

(** C2, amended.  What an emitted row has passed is the window test on
    its two times after the shift: the distance of the shifted times is
    within the window.  And the run with an offset is the run with offset
    0 (same rows, same report, same failure if any) whenever the rounding
    of the shift changes the outcome of no window test on the times of
    the input, as it is when the shifted times are exact; the rows then
    pass the test without shift as well. *)
Theorem C2_offset_up_to_rounding (argsort : list float -> list nat)
    (b : F64.Branches) (time_window_ns offset_ns : float) :
  (forall o,
     F64.sort_coincidences argsort b time_window_ns offset_ns = Ok o ->
     Forall (F64.passed time_window_ns offset_ns) (F64.emitted o))
  /\ (F64.offset_harmless (F64.GlobalTime b) time_window_ns offset_ns = true ->
      F64.sort_coincidences argsort b time_window_ns offset_ns
      = F64.sort_coincidences argsort b time_window_ns 0
      /\ forall o,
           F64.sort_coincidences argsort b time_window_ns offset_ns = Ok o ->
           Forall (F64.passed time_window_ns 0) (F64.emitted o)).
Proof.
  split.
  - intros o. apply sort_coincidences_passed.
  - intros H. pose proof (sort_coincidences_harmless argsort b _ _ H) as E.
    split; [exact E |].
    intros o Ho. rewrite E in Ho.
    eapply sort_coincidences_passed. exact Ho.
Qed.

Lemma C2_offset_up_to_rounding_witness :
  F64.offset_harmless (F64.GlobalTime F64.whole_pair) 120 500 = true
  /\ F64.sort_coincidences F64.argsort_ties_kept F64.whole_pair 120 500
     = F64.sort_coincidences F64.argsort_ties_kept F64.whole_pair 120 0
  /\ exists c,
       F64.sort_coincidences F64.argsort_ties_kept F64.whole_pair 120 500
       = Ok (F64.finish [c])
       /\ F64.passed 120 500 c /\ F64.passed 120 0 c.
Proof.
  destruct (C2_offset_up_to_rounding F64.argsort_ties_kept F64.whole_pair
              120 500) as [Hpassed Hsame].
  destruct (Hsame eq_refl) as [Heq Hplain].
  split; [reflexivity |]. split; [exact Heq |].
  assert (Hrun : exists c,
            F64.sort_coincidences F64.argsort_ties_kept F64.whole_pair
              120 500 = Ok (F64.finish [c]))
    by (eexists; reflexivity).
  destruct Hrun as [c Hc]. exists c. split; [exact Hc |]. split.
  - exact (@Forall_inv _ (F64.passed 120 500) c [] (Hpassed _ Hc)).
  - exact (@Forall_inv _ (F64.passed 120 0) c [] (Hplain _ Hc)).
Defined.

End OffsetAndRounding.

(** C3 (as stated it fails).  The claim asks for a stable sort.  The code
    calls [np.argsort] without choosing a stable kind, and the result need
    not keep the input order of records with the same timestamp.  On the
    times [5, 5, 3, 3] of events 0 to 3 the index vector
    [tied_rows_sort_idx] meets the contract, and the sorting step of the
    code, run with it, lists the events as 3, 2, 1, 0: both ties come out
    in the reverse of their input order.  On this input every index vector
    that meets the contract, except the stable [2; 3; 0; 1], breaks the
    order of a tie. *)
Lemma C3_ties_may_flip :
  well_formed tied_rows = true
  /\ GlobalTime tied_rows = [5; 5; 3; 3]
  /\ EventID tied_rows = [0; 1; 2; 3]
  /\ is_argsort (GlobalTime tied_rows) tied_rows_sort_idx = true
  /\ (exists s,
        sorted_arrays (fun _ => tied_rows_sort_idx) tied_rows = Ok s
        /\ times s = [3; 3; 5; 5] /\ eventIDs s = [3; 2; 1; 0])
  /\ (forall idx,
        is_argsort (GlobalTime tied_rows) idx = true ->
        idx <> [2; 3; 0; 1]%nat ->
        ~ ties_keep_order (read_branches tied_rows) idx).
Proof.
  repeat split; try reflexivity.
  - eexists. repeat split; reflexivity.
  - intros idx H Hne Hties.
    pose proof (is_argsort_length _ _ H) as L.
    destruct idx as [| x [| y [| z [| w [| v idx]]]]]; try discriminate L.
    assert (Hcases : [x; y; z; w] = [2; 3; 0; 1]%nat
                     \/ [x; y; z; w] = [3; 2; 0; 1]%nat
                     \/ [x; y; z; w] = [2; 3; 1; 0]%nat
                     \/ [x; y; z; w] = [3; 2; 1; 0]%nat).
    { destruct x as [| [| [| [| x]]]]; try discriminate H;
        destruct y as [| [| [| [| y]]]]; try discriminate H;
        destruct z as [| [| [| [| z]]]]; try discriminate H;
        destruct w as [| [| [| [| w]]]]; try discriminate H; tauto. }
    destruct Hcases as [E | [E | [E | E]]]; [contradiction | | |];
      injection E as -> -> -> ->.
    + assert (3 < 2)%nat by (apply (Hties 0%nat 1%nat); [simpl; lia |
        reflexivity]). lia.
    + assert (1 < 0)%nat by (apply (Hties 2%nat 3%nat); [simpl; lia |
        reflexivity]). lia.
    + assert (3 < 2)%nat by (apply (Hties 0%nat 1%nat); [simpl; lia |
        reflexivity]). lia.
Qed.

(** C3, amended.  The sorting step re-indexes all parallel arrays in
    lock-step by the one index vector the index sort returns: the sorted
    records are the input records, each whole, in the order of that
    vector; they are a permutation of the input records; their times
    ascend, and so do the shifted times.  Which of two records with the
    same timestamp comes first is left to the index sort. *)
Theorem C3_sorting_step (argsort : list Z -> list nat) (b : Branches)
    (offset_ns : Z) :
  well_formed b = true ->
  is_argsort (GlobalTime b) (argsort (GlobalTime b)) = true ->
  exists s,
    sorted_arrays argsort b = Ok s
    /\ rows s = map (row (read_branches b)) (argsort (GlobalTime b))
    /\ Permutation (rows s) (rows (read_branches b))
    /\ StronglySorted Z.le (times s)
    /\ StronglySorted Z.le (shift offset_ns (times s)).
Proof.
  intros Hwf Harg.
  destruct (sorted_arrays_reindex argsort b Hwf Harg)
    as (Hs & _ & _ & Hsorted).
  eexists. split; [exact Hs |].
  rewrite rows_reindex. repeat split.
  - unfold rows. apply Permutation_map.
    now apply is_argsort_perm.
  - exact Hsorted.
  - apply shift_sorted. exact Hsorted.
Qed.

Lemma C3_sorting_step_witness :
  exists s,
    sorted_arrays argsort_ties_kept unsorted_rows = Ok s
    /\ rows s = map (row (read_branches unsorted_rows))
                  (argsort_ties_kept (GlobalTime unsorted_rows))
    /\ Permutation (rows s) (rows (read_branches unsorted_rows))
    /\ StronglySorted Z.le (times s)
    /\ StronglySorted Z.le (shift 500 (times s)).
Proof.
  apply (C3_sorting_step argsort_ties_kept unsorted_rows 500); reflexivity.
Defined.

(** C4.  The window boundary is inclusive.  On a well-formed input, let
    [j] be the first record after [i], in sorted order, that lies on
    another detector.  If their distance is exactly the window, the pair
    [(i, j)] is emitted.  No pair whose distance exceeds the window is
    emitted, and every emitted pair is at most one window apart.  The
    distance is the one the code compares with the window: that of the
    shifted times. *)
Theorem C4_window_boundary_inclusive (argsort : list Z -> list nat)
    (b : Branches) (time_window_ns offset_ns : Z) :
  well_formed b = true ->
  is_argsort (GlobalTime b) (argsort (GlobalTime b)) = true ->
  exists s o ps,
    sorted_arrays argsort b = Ok s
    /\ sort_coincidences argsort b time_window_ns offset_ns = Ok o
    /\ built_at s (emitted o) ps
    /\ (forall i j,
          (i < j < length (times s))%nat ->
          other_detector s i j = true ->
          (forall k, (i < k < j)%nat -> other_detector s i k = false) ->
          time_diff s offset_ns i j = time_window_ns ->
          In (i, j) ps)
    /\ (forall i j,
          time_window_ns < time_diff s offset_ns i j -> ~ In (i, j) ps)
    /\ (forall i j,
          In (i, j) ps -> time_diff s offset_ns i j <= time_window_ns).
Proof.
  intros Hwf Harg.
  destruct (sort_coincidences_pairs argsort b time_window_ns offset_ns
              Hwf Harg) as (s & o & Hs & Ho & _ & _ & Hsorted & Hb).
  exists s, o, (pairs s time_window_ns offset_ns).
  repeat split; try assumption.
  - intros i j Hij Hd Hbefore Hw.
    apply in_pairs_least; [exact Hsorted |]. repeat split; try lia.
    + unfold qualifies. rewrite Hd, Hw, Z.leb_refl. reflexivity.
    + intros k Hk. unfold qualifies. rewrite (Hbefore k Hk).
      apply andb_false_r.
  - intros i j Hout Hin. apply in_pairs_qualifies in Hin.
    destruct Hin as [_ Hq]. apply andb_true_iff in Hq.
    destruct Hq as [Hq _]. apply Z.leb_le in Hq. lia.
  - intros i j Hin. apply in_pairs_qualifies in Hin.
    destruct Hin as [_ Hq]. apply andb_true_iff in Hq.
    destruct Hq as [Hq _]. apply Z.leb_le in Hq. exact Hq.
Qed.

Lemma C4_window_boundary_inclusive_witness :
  exists s o ps,
    sorted_arrays argsort_ties_kept boundary_scenario = Ok s
    /\ sort_coincidences argsort_ties_kept boundary_scenario 120 0 = Ok o
    /\ built_at s (emitted o) ps
    /\ (forall i j,
          (i < j < length (times s))%nat ->
          other_detector s i j = true ->
          (forall k, (i < k < j)%nat -> other_detector s i k = false) ->
          time_diff s 0 i j = 120 ->
          In (i, j) ps)
    /\ (forall i j, 120 < time_diff s 0 i j -> ~ In (i, j) ps)
    /\ (forall i j, In (i, j) ps -> time_diff s 0 i j <= 120).
Proof.
  apply (C4_window_boundary_inclusive argsort_ties_kept boundary_scenario
           120 0); reflexivity.
Defined.

(** C5.  No emitted row pairs two singles of the same detector: whatever
    the input, the window and the offset, every row of the output has
    [volumeID1] different from [volumeID2], and these are the detector
    identifiers of the two input records the row was built from. *)
Theorem C5_never_same_detector (argsort : list Z -> list nat) (b : Branches)
    (time_window_ns offset_ns : Z) (o : Output) :
  sort_coincidences argsort b time_window_ns offset_ns = Ok o ->
  Forall (fun c =>
            volumeID1 c <> volumeID2 c
            /\ exists p q,
                 index (PostStepUniqueVolumeID b) p = Ok (volumeID1 c)
                 /\ index (PostStepUniqueVolumeID b) q = Ok (volumeID2 c))
    (emitted o).
Proof.
  intros H. apply sort_coincidences_emitted in H.
  destruct H as (s & Hs & H).
  eapply Forall_impl; [| exact H].
  intros c (i & j & t1 & t2 & _ & _ & _ & _ & Hc & Hd).
  split; [exact Hd |].
  destruct (@make_coinc_original _ _ _ _ _ _ Hs Hc)
    as (p & q & _ & _ & S1 & S2 & _).
  exists p, q. unfold side1_of, side2_of in *. simpl in *. tauto.
Qed.

Lemma C5_never_same_detector_witness :
  sort_coincidences argsort_ties_kept skip_scenario 120 0 = Ok skip_output
  /\ Forall (fun c =>
               volumeID1 c <> volumeID2 c
               /\ exists p q,
                    index (PostStepUniqueVolumeID skip_scenario) p
                    = Ok (volumeID1 c)
                    /\ index (PostStepUniqueVolumeID skip_scenario) q
                       = Ok (volumeID2 c))
       (emitted skip_output).
Proof.
  split; [reflexivity |].
  apply (C5_never_same_detector argsort_ties_kept skip_scenario 120 0).
  reflexivity.
Defined.

(** C6.  A record of the same detector inside the window does not stop
    the scan.  On a well-formed input, if [k] is the first record after
    [i] on another detector and [k] lies inside the window, then every
    record [j] between them (same detector, and inside the window too) is
    passed over and the pair [(i, k)] is emitted.  On the scenario
    (detector 1 at 0 ns, detector 1 at 10 ns, detector 2 at 15 ns) with a
    120 ns window and no offset, the first single is paired with the
    third and not with the second; the second is paired with the third. *)
Theorem C6_same_detector_skipped (argsort : list Z -> list nat)
    (b : Branches) (time_window_ns offset_ns : Z) :
  well_formed b = true ->
  is_argsort (GlobalTime b) (argsort (GlobalTime b)) = true ->
  is_argsort (GlobalTime skip_scenario)
    (argsort (GlobalTime skip_scenario)) = true ->
  (exists s o ps,
     sorted_arrays argsort b = Ok s
     /\ sort_coincidences argsort b time_window_ns offset_ns = Ok o
     /\ built_at s (emitted o) ps
     /\ forall i j k,
          (i < j < k)%nat -> (k < length (times s))%nat ->
          (forall m, (i < m < k)%nat -> other_detector s i m = false) ->
          qualifies s time_window_ns offset_ns i k = true ->
          time_diff s offset_ns i j <= time_window_ns
          /\ In (i, k) ps /\ ~ In (i, j) ps)
  /\ sort_coincidences argsort skip_scenario 120 0 = Ok skip_output
  /\ map (fun c => (eventID1 c, eventID2 c, time1 c, time2 c))
       (emitted skip_output)
     = [(0, 2, 0, 15); (1, 2, 10, 15)].
Proof.
  intros Hwf Harg Hskip. split.
  - destruct (sort_coincidences_pairs argsort b time_window_ns offset_ns
                Hwf Harg) as (s & o & Hs & Ho & _ & _ & Hsorted & Hb).
    exists s, o, (pairs s time_window_ns offset_ns).
    split; [exact Hs |]. split; [exact Ho |]. split; [exact Hb |].
    intros i j k Hijk Hk Hsame Hqual. split; [| split].
    + apply andb_true_iff in Hqual. destruct Hqual as [Hq _].
      apply Z.leb_le in Hq.
      pose proof (@time_diff_mono s offset_ns Hsorted i j k). lia.
    + apply in_pairs_least; [exact Hsorted |].
      split; [lia |]. split; [exact Hqual |].
      intros m Hm. unfold qualifies. rewrite (Hsame m Hm).
      apply andb_false_r.
    + intros Hin. apply in_pairs_qualifies in Hin.
      destruct Hin as [_ Hq]. apply andb_true_iff in Hq.
      destruct Hq as [_ Hq]. rewrite Hsame in Hq by lia. discriminate.
  - apply argsort_skip_scenario in Hskip.
    unfold sort_coincidences, sorted_arrays.
    change (times (read_branches skip_scenario))
      with (GlobalTime skip_scenario).
    rewrite Hskip. split; reflexivity.
Qed.

Lemma C6_same_detector_skipped_witness :
  (exists s o ps,
     sorted_arrays argsort_ties_kept skip_scenario = Ok s
     /\ sort_coincidences argsort_ties_kept skip_scenario 120 0 = Ok o
     /\ built_at s (emitted o) ps
     /\ forall i j k,
          (i < j < k)%nat -> (k < length (times s))%nat ->
          (forall m, (i < m < k)%nat -> other_detector s i m = false) ->
          qualifies s 120 0 i k = true ->
          time_diff s 0 i j <= 120
          /\ In (i, k) ps /\ ~ In (i, j) ps)
  /\ sort_coincidences argsort_ties_kept skip_scenario 120 0 = Ok skip_output
  /\ map (fun c => (eventID1 c, eventID2 c, time1 c, time2 c))
       (emitted skip_output)
     = [(0, 2, 0, 15); (1, 2, 10, 15)].
Proof.
  apply (C6_same_detector_skipped argsort_ties_kept skip_scenario 120 0);
    reflexivity.
Defined.

Lemma increasing_NoDup (l : list nat) : StronglySorted lt l -> NoDup l.
Proof.
  induction 1 as [| x l _ IH Hx]; constructor; [| exact IH].
  intros Hin. rewrite Forall_forall in Hx. specialize (Hx x Hin). lia.
Qed.

(** C7.  First qualifying match wins.  On a well-formed input the emitted
    rows were built at positions [(i, j)] of the sorted sequence whose left
    members strictly increase, so that each [i] is the left member of at
    most one row, and [(i, j)] is among them exactly when [j] is the
    smallest position after [i] inside the window and on another
    detector. *)
Theorem C7_first_match_wins (argsort : list Z -> list nat) (b : Branches)
    (time_window_ns offset_ns : Z) :
  well_formed b = true ->
  is_argsort (GlobalTime b) (argsort (GlobalTime b)) = true ->
  exists s o ps,
    sorted_arrays argsort b = Ok s
    /\ sort_coincidences argsort b time_window_ns offset_ns = Ok o
    /\ built_at s (emitted o) ps
    /\ StronglySorted lt (map fst ps)
    /\ NoDup (map fst ps)
    /\ forall i j,
         In (i, j) ps <-> least_qualifying s time_window_ns offset_ns i j.
Proof.
  intros Hwf Harg.
  destruct (sort_coincidences_pairs argsort b time_window_ns offset_ns
              Hwf Harg) as (s & o & Hs & Ho & _ & _ & Hsorted & Hb).
  exists s, o, (pairs s time_window_ns offset_ns).
  split; [exact Hs |]. split; [exact Ho |]. split; [exact Hb |].
  split; [apply pairs_increasing |].
  split; [apply increasing_NoDup, pairs_increasing |].
  intros i j. now apply in_pairs_least.
Qed.

Lemma C7_first_match_wins_witness :
  exists s o ps,
    sorted_arrays argsort_ties_kept skip_scenario = Ok s
    /\ sort_coincidences argsort_ties_kept skip_scenario 120 0 = Ok o
    /\ built_at s (emitted o) ps
    /\ StronglySorted lt (map fst ps)
    /\ NoDup (map fst ps)
    /\ forall i j, In (i, j) ps <-> least_qualifying s 120 0 i j.
Proof.
  apply (C7_first_match_wins argsort_ties_kept skip_scenario 120 0);
    reflexivity.
Defined.

(** C8.  The early exit loses nothing.  On a well-formed input sorted by
    an admissible index sort, the run and its naive variant, which visits
    every [j] from [i + 1] to [n - 1], both return, with the same output,
    for every window and offset. *)
Theorem C8_early_exit_loses_nothing (argsort : list Z -> list nat)
    (b : Branches) (time_window_ns offset_ns : Z) :
  well_formed b = true ->
  is_argsort (GlobalTime b) (argsort (GlobalTime b)) = true ->
  exists o,
    sort_coincidences argsort b time_window_ns offset_ns = Ok o
    /\ naive_sort_coincidences argsort b time_window_ns offset_ns = Ok o.
Proof.
  intros Hwf Harg.
  destruct (sort_coincidences_pairs argsort b time_window_ns offset_ns
              Hwf Harg) as (s & o & Hs & Ho & _ & _ & Hsorted & _).
  exists o. split; [exact Ho |].
  unfold naive_sort_coincidences. unfold sort_coincidences in Ho.
  rewrite Hs in *. simpl in *.
  now rewrite naive_find_coincidences_same.
Qed.

Lemma C8_early_exit_loses_nothing_witness :
  exists o,
    sort_coincidences argsort_ties_kept boundary_scenario 120 500 = Ok o
    /\ naive_sort_coincidences argsort_ties_kept boundary_scenario 120 500
       = Ok o.
Proof.
  apply (C8_early_exit_loses_nothing argsort_ties_kept boundary_scenario
           120 500); reflexivity.
Defined.

(** C9.  Degenerate input is not an error.  On a well-formed input with
    no record or one record, the run raises nothing and reports the empty
    result: no table is written and the returned count is 0. *)
Theorem C9_degenerate_input (argsort : list Z -> list nat) (b : Branches)
    (time_window_ns offset_ns : Z) :
  well_formed b = true ->
  (length (GlobalTime b) <= 1)%nat ->
  is_argsort (GlobalTime b) (argsort (GlobalTime b)) = true ->
  sort_coincidences argsort b time_window_ns offset_ns
  = Ok {| written := None; returned := 0 |}.
Proof.
  intros Hwf Hn Harg.
  destruct (sort_coincidences_pairs argsort b time_window_ns offset_ns
              Hwf Harg) as (s & o & _ & Ho & Hfin & Hlen & _ & Hb).
  rewrite Ho, Hfin. f_equal.
  unfold pairs in Hb. rewrite Hlen in Hb.
  replace (length (GlobalTime b) - 1)%nat with 0%nat in Hb by lia.
  apply built_at_nil in Hb. rewrite Hb. reflexivity.
Qed.

Lemma C9_degenerate_input_witness :
  sort_coincidences argsort_ties_kept (singles []) 120 0
  = Ok {| written := None; returned := 0 |}
  /\ sort_coincidences argsort_ties_kept lone_single 120 500
     = Ok {| written := None; returned := 0 |}.
Proof.
  split.
  - apply (C9_degenerate_input argsort_ties_kept (singles []) 120 0);
      [reflexivity | simpl; lia | reflexivity].
  - apply (C9_degenerate_input argsort_ties_kept lone_single 120 500);
      [reflexivity | simpl; lia | reflexivity].
Defined.

(** C10.  Every emitted row carries zero in the six placeholder fields
    [comptonPhantom1/2], [RayleighPhantom1/2] and [sourceID1/2], and its
    [runID] is the run identifier of the input record on its side 1 (zero
    when the input has no [RunID] branch). *)
Theorem C10_placeholders_and_runID (argsort : list Z -> list nat)
    (b : Branches) (time_window_ns offset_ns : Z) (o : Output) :
  sort_coincidences argsort b time_window_ns offset_ns = Ok o ->
  Forall (fun c =>
            comptonPhantom1 c = 0 /\ comptonPhantom2 c = 0
            /\ RayleighPhantom1 c = 0 /\ RayleighPhantom2 c = 0
            /\ sourceID1 c = 0 /\ sourceID2 c = 0
            /\ (exists p q,
                  side1_of (read_branches b) p c
                  /\ side2_of (read_branches b) q c
                  /\ index (runIDs (read_branches b)) p = Ok (runID c))
            /\ (RunID b = None -> runID c = 0))
    (emitted o).
Proof.
  intros H. apply sort_coincidences_emitted in H.
  destruct H as (s & Hs & H).
  eapply Forall_impl; [| exact H].
  intros c (i & j & t1 & t2 & _ & _ & _ & _ & Hc & _).
  destruct (make_coinc_inv _ _ _ Hc)
    as (_ & _ & _ & _ & _ & _ & _ & _ & _ & _ & _ & _ & _ & _ & _ & _ & _
        & Z1 & Z2 & Z3 & Z4 & Z5 & Z6).
  destruct (@make_coinc_original _ _ _ _ _ _ Hs Hc)
    as (p & q & _ & _ & S1 & S2 & Hr).
  repeat (split; [assumption |]). split.
  - exists p, q. split; [exact S1 | split; [exact S2 | exact Hr]].
  - intros Hnone. simpl in Hr. rewrite Hnone in Hr.
    now apply index_repeat in Hr.
Qed.

Lemma C10_placeholders_and_runID_witness :
  sort_coincidences argsort_ties_kept true_pair 120 500 = Ok delayed_output
  /\ Forall (fun c =>
               comptonPhantom1 c = 0 /\ comptonPhantom2 c = 0
               /\ RayleighPhantom1 c = 0 /\ RayleighPhantom2 c = 0
               /\ sourceID1 c = 0 /\ sourceID2 c = 0
               /\ (exists p q,
                     side1_of (read_branches true_pair) p c
                     /\ side2_of (read_branches true_pair) q c
                     /\ index (runIDs (read_branches true_pair)) p
                        = Ok (runID c))
               /\ (RunID true_pair = None -> runID c = 0))
       (emitted delayed_output).
Proof.
  split; [reflexivity |].
  apply (C10_placeholders_and_runID argsort_ties_kept true_pair 120 500).
  reflexivity.
Defined.

(** * Further properties of the sorter *)

Lemma built_at_length (s : Arrays) (cs : list Coincidence)
    (ps : list (nat * nat)) :
  built_at s cs ps -> length cs = length ps.
Proof. apply Forall2_length. Qed.

Lemma pairs_over_length (s : Arrays) (time_window_ns offset_ns : Z)
    (todo : list nat) :
  (length (pairs_over s time_window_ns offset_ns todo) <= length todo)%nat.
Proof.
  induction todo as [| i todo IH]; simpl; [lia |].
  destruct (partner s time_window_ns offset_ns i _); simpl; lia.
Qed.

Lemma finish_written_none (cs : list Coincidence) :
  written (finish cs) = None <-> returned (finish cs) = 0%nat.
Proof. destruct cs; simpl; split; intros H; congruence. Qed.

(** X1.  On a well-formed input sorted by an admissible index sort the run
    raises nothing; the count it returns is the number of rows it emitted,
    which is at most the number of singles minus one (one row at most per
    left member); and the table is left unwritten exactly when the count
    is zero. *)
Theorem run_returns_bounded_count (argsort : list Z -> list nat)
    (b : Branches) (time_window_ns offset_ns : Z) :
  well_formed b = true ->
  is_argsort (GlobalTime b) (argsort (GlobalTime b)) = true ->
  exists o,
    sort_coincidences argsort b time_window_ns offset_ns = Ok o
    /\ returned o = length (emitted o)
    /\ (returned o <= length (GlobalTime b) - 1)%nat
    /\ (written o = None <-> returned o = 0%nat).
Proof.
  intros Hwf Harg.
  destruct (sort_coincidences_pairs argsort b time_window_ns offset_ns
              Hwf Harg) as (s & o & _ & Ho & Hfin & Hlen & _ & Hb).
  exists o. split; [exact Ho |].
  apply built_at_length in Hb.
  remember (emitted o) as cs eqn:Ecs. clear Ho Ecs. subst o.
  split; [reflexivity |]. split; [| apply finish_written_none].
  simpl. rewrite Hb. unfold pairs.
  etransitivity; [apply pairs_over_length |].
  rewrite length_seq, Hlen. lia.
Qed.

Lemma run_returns_bounded_count_witness :
  exists o,
    sort_coincidences argsort_ties_kept skip_scenario 120 0 = Ok o
    /\ returned o = length (emitted o)
    /\ (returned o <= length (GlobalTime skip_scenario) - 1)%nat
    /\ (written o = None <-> returned o = 0%nat).
Proof.
  apply (run_returns_bounded_count argsort_ties_kept skip_scenario 120 0);
    reflexivity.
Defined.

(** X2.  A negative window pairs nothing: whatever the input, the offset
    and the index sort, a run that returns has written no table and
    returns 0. *)
Theorem negative_window_finds_nothing (argsort : list Z -> list nat)
    (b : Branches) (time_window_ns offset_ns : Z) (o : Output) :
  time_window_ns < 0 ->
  sort_coincidences argsort b time_window_ns offset_ns = Ok o ->
  o = {| written := None; returned := 0 |}.
Proof.
  intros Hneg H.
  destruct (sort_coincidences_inv _ _ _ _ H) as (_ & _ & _ & Hfin).
  apply sort_coincidences_emitted in H. destruct H as (s & _ & H).
  destruct (emitted o) as [| c cs] eqn:E; [exact Hfin |].
  inversion H as [| c' cs' Hc _]; subst.
  destruct Hc as (i & j & t1 & t2 & _ & _ & _ & Hw & _).
  pose proof (Z.abs_nonneg (t2 - t1)). lia.
Qed.

Lemma negative_window_finds_nothing_witness :
  output_of (sort_coincidences argsort_ties_kept true_pair (-1) 0)
  = {| written := None; returned := 0 |}.
Proof.
  apply (@negative_window_finds_nothing argsort_ties_kept true_pair (-1) 0);
    [lia | reflexivity].
Defined.

(** X3.  When every single comes from the same detector, nothing is
    paired: a run that returns has written no table and returns 0,
    whatever the window and the offset. *)
Theorem single_detector_finds_nothing (argsort : list Z -> list nat)
    (b : Branches) (time_window_ns offset_ns : Z) (o : Output) (v : Z) :
  Forall (fun x => x = v) (PostStepUniqueVolumeID b) ->
  sort_coincidences argsort b time_window_ns offset_ns = Ok o ->
  o = {| written := None; returned := 0 |}.
Proof.
  intros Hv H.
  destruct (sort_coincidences_inv _ _ _ _ H) as (_ & _ & _ & Hfin).
  apply sort_coincidences_emitted in H. destruct H as (s & Hs & H).
  destruct (emitted o) as [| c cs] eqn:E; [exact Hfin |].
  inversion H as [| c' cs' Hc _]; subst.
  destruct Hc as (i & j & t1 & t2 & _ & _ & _ & _ & Hc & Hd).
  destruct (@make_coinc_original _ _ _ _ _ _ Hs Hc)
    as (p & q & _ & _ & S1 & S2 & _).
  destruct S1 as (_ & _ & _ & _ & _ & _ & V1 & _).
  destruct S2 as (_ & _ & _ & _ & _ & _ & V2 & _).
  apply index_In in V1, V2. rewrite Forall_forall in Hv.
  simpl in V1, V2. apply Hv in V1, V2. congruence.
Qed.

Lemma single_detector_finds_nothing_witness :
  output_of (sort_coincidences argsort_ties_kept
               (singles [(1, 0); (1, 10); (1, 15)]) 120 0)
  = {| written := None; returned := 0 |}.
Proof.
  apply (@single_detector_finds_nothing argsort_ties_kept
           (singles [(1, 0); (1, 10); (1, 15)]) 120 0 _ 1).
  - repeat constructor.
  - reflexivity.
Defined.

Lemma built_at_time1 (s : Arrays) (cs : list Coincidence)
    (ps : list (nat * nat)) :
  built_at s cs ps ->
  map time1 cs = map (fun i => nth i (times s) 0) (map fst ps)
  /\ Forall (fun i => (i < length (times s))%nat) (map fst ps).
Proof.
  induction 1 as [| c p cs ps Hc _ [IH1 IH2]]; simpl.
  - split; constructor.
  - destruct (make_coinc_inv _ _ _ Hc) as (C1 & _).
    destruct (index_inv _ _ 0 C1) as [Hi <-].
    split; [now rewrite IH1 | now constructor].
Qed.

Lemma increasing_positions_sorted (ts : list Z) (l : list nat) :
  StronglySorted Z.le ts -> StronglySorted lt l ->
  Forall (fun i => (i < length ts)%nat) l ->
  StronglySorted Z.le (map (fun i => nth i ts 0) l).
Proof.
  intros Hts Hl. induction Hl as [| i l Hl IH Hi]; intros Hb; simpl;
    [constructor |].
  inversion Hb as [| i' l' Hib Hlb]; subst.
  constructor; [now apply IH |].
  apply Forall_map. rewrite Forall_forall in *. intros k Hk.
  apply StronglySorted_nth; [exact Hts |].
  specialize (Hi k Hk). specialize (Hlb k Hk). lia.
Qed.

(** X4.  On a well-formed input the rows are emitted in time order: the
    values of [time1] ascend along the table, and within every row
    [time1] is not after [time2]. *)
Theorem emitted_rows_in_time_order (argsort : list Z -> list nat)
    (b : Branches) (time_window_ns offset_ns : Z) :
  well_formed b = true ->
  is_argsort (GlobalTime b) (argsort (GlobalTime b)) = true ->
  exists o,
    sort_coincidences argsort b time_window_ns offset_ns = Ok o
    /\ StronglySorted Z.le (map time1 (emitted o))
    /\ Forall (fun c => time1 c <= time2 c) (emitted o).
Proof.
  intros Hwf Harg.
  destruct (sort_coincidences_pairs argsort b time_window_ns offset_ns
              Hwf Harg) as (s & o & Hs & Ho & _ & _ & Hsorted & Hb).
  exists o. split; [exact Ho |]. split.
  - destruct (built_at_time1 Hb) as [-> Hr].
    apply increasing_positions_sorted;
      [exact Hsorted | apply pairs_increasing | exact Hr].
  - destruct (sort_coincidences_emitted _ _ _ _ Ho) as (s' & Hs' & H).
    assert (s' = s) by congruence. subst s'.
    eapply Forall_impl; [| exact H].
    intros c (i & j & t1 & t2 & Hij & _ & _ & _ & Hc & _).
    destruct (make_coinc_inv _ _ _ Hc) as (C1 & C2 & _).
    destruct (index_inv _ _ 0 C1) as [_ <-].
    destruct (index_inv _ _ 0 C2) as [Hj <-].
    apply StronglySorted_nth; [exact Hsorted | lia].
Qed.

Lemma emitted_rows_in_time_order_witness :
  exists o,
    sort_coincidences argsort_ties_kept
      (singles [(2, 1080); (1, 0); (1, 1000); (2, 50)]) 120 500 = Ok o
    /\ StronglySorted Z.le (map time1 (emitted o))
    /\ Forall (fun c => time1 c <= time2 c) (emitted o).
Proof.
  apply (emitted_rows_in_time_order argsort_ties_kept
           (singles [(2, 1080); (1, 0); (1, 1000); (2, 50)]) 120 500);
    reflexivity.
Defined.

(** X5.  No single is paired with itself: with an admissible index sort,
    the two sides of every emitted row are two different rows of the
    input. *)
Theorem emitted_rows_join_distinct_singles (argsort : list Z -> list nat)
    (b : Branches) (time_window_ns offset_ns : Z) (o : Output) :
  is_argsort (GlobalTime b) (argsort (GlobalTime b)) = true ->
  sort_coincidences argsort b time_window_ns offset_ns = Ok o ->
  Forall (fun c =>
            exists p q,
              p <> q
              /\ side1_of (read_branches b) p c
              /\ side2_of (read_branches b) q c)
    (emitted o).
Proof.
  intros Harg H. apply sort_coincidences_emitted in H.
  destruct H as (s & Hs & H).
  assert (Hnd : NoDup (argsort (GlobalTime b))).
  { apply is_argsort_perm in Harg. symmetry in Harg.
    apply (Permutation_NoDup Harg), seq_NoDup. }
  eapply Forall_impl; [| exact H].
  intros c (i & j & t1 & t2 & Hij & _ & _ & _ & Hc & _).
  destruct (@make_coinc_original _ _ _ _ _ _ Hs Hc)
    as (p & q & Hp & Hq & S1 & S2 & _).
  exists p, q. split; [| split; assumption].
  simpl in Hp, Hq.
  destruct (index_inv _ _ 0%nat Hp) as [Hi <-].
  destruct (index_inv _ _ 0%nat Hq) as [Hj <-].
  intros Heq. apply (proj1 (NoDup_nth _ 0%nat) Hnd) in Heq; lia.
Qed.

Lemma emitted_rows_join_distinct_singles_witness :
  sort_coincidences argsort_ties_kept skip_scenario 120 0 = Ok skip_output
  /\ Forall (fun c =>
               exists p q,
                 p <> q
                 /\ side1_of (read_branches skip_scenario) p c
                 /\ side2_of (read_branches skip_scenario) q c)
       (emitted skip_output).
Proof.
  split; [reflexivity |].
  apply (@emitted_rows_join_distinct_singles argsort_ties_kept skip_scenario
           120 0); reflexivity.
Defined.

(** ** The driver *)

Section Driver.

Import PrimFloat.

(** X6.  The driver's delayed pass repeats its prompt pass as long as the
    rounding of the 500 ns shift changes the outcome of no window test on
    the times of the singles file.  Then, whenever [main] returns, the
    table left in [delay.root] is the table left in [coincidences.root]
    and the two printed counts are equal; and [main] returns as soon as
    its prompt pass does, with the table and the count of that pass. *)
Theorem main_delayed_pass_repeats_prompt (argsort : list float -> list nat)
    (b : F64.Branches) :
  F64.offset_harmless (F64.GlobalTime b) F64.time_window F64.delay_offset
  = true ->
  (forall r,
     F64.main argsort (Some b) = Ok (Some r) ->
     F64.delay_output r = F64.prompt_output r
     /\ F64.n_delay r = F64.n_prompt r)
  /\ (forall p,
        F64.sort_coincidences argsort b F64.time_window 0 = Ok p ->
        exists r,
          F64.main argsort (Some b) = Ok (Some r)
          /\ F64.prompt_output r = F64.written p
          /\ F64.n_prompt r = F64.returned p).
Proof.
  intros H. apply (sort_coincidences_harmless argsort) in H.
  unfold F64.main. rewrite H. split.
  - intros r Hr.
    destruct (F64.sort_coincidences argsort b F64.time_window 0) as [p | e];
      simpl in Hr; [| discriminate Hr].
    injection Hr as <-. split; reflexivity.
  - intros p ->. simpl. eexists. repeat split.
Qed.

Lemma main_delayed_pass_repeats_prompt_witness :
  F64.offset_harmless (F64.GlobalTime F64.whole_pair) 120 500 = true
  /\ exists r,
       F64.main F64.argsort_ties_kept (Some F64.whole_pair) = Ok (Some r)
       /\ F64.n_prompt r = 1%nat
       /\ F64.delay_output r = F64.prompt_output r
       /\ F64.n_delay r = F64.n_prompt r.
Proof.
  destruct (@main_delayed_pass_repeats_prompt F64.argsort_ties_kept
              F64.whole_pair eq_refl) as [Hsame Hruns].
  split; [reflexivity |].
  destruct (Hruns (F64.output_of
                     (F64.sort_coincidences F64.argsort_ties_kept
                        F64.whole_pair F64.time_window 0)) eq_refl)
    as (r & Hr & _ & Hn).
  exists r. split; [exact Hr |]. split; [exact Hn |].
  apply Hsame. exact Hr.
Defined.

(** Without that condition the two passes can differ: on the singles at
    0.2 and 120.2 the prompt pass finds the pair and the delayed pass
    finds nothing. *)
Example main_passes_differ :
  exists r,
    F64.main F64.argsort_ties_kept (Some F64.pair_lost_by_shift)
    = Ok (Some r)
    /\ F64.n_prompt r = 1%nat /\ F64.n_delay r = 0%nat
    /\ F64.delay_output r = None.
Proof. eexists. repeat split. Qed.

(** Without a singles file [main] runs no pass. *)
Example main_without_singles (argsort : list float -> list nat) :
  F64.main argsort None = Ok None.
Proof. reflexivity. Qed.

End Driver.

(** ** Widening the window *)

Lemma partner_widen (s : Arrays) (w w' offset_ns : Z) (i j : nat)
    (js : list nat) :
  w <= w' ->
  partner s w offset_ns i js = Some j ->
  partner s w' offset_ns i js = Some j.
Proof.
  intros Hw. induction js as [| k js IH]; simpl; [discriminate |].
  destruct (time_diff s offset_ns i k <=? w) eqn:E; [| discriminate].
  apply Z.leb_le in E.
  assert (E' : (time_diff s offset_ns i k <=? w') = true)
    by (apply Z.leb_le; lia).
  rewrite E'. destruct (other_detector s i k); [trivial | exact IH].
Qed.

Lemma pairs_over_widen (s : Arrays) (w w' offset_ns : Z)
    (todo : list nat) :
  w <= w' ->
  incl (pairs_over s w offset_ns todo) (pairs_over s w' offset_ns todo)
  /\ (length (pairs_over s w offset_ns todo)
      <= length (pairs_over s w' offset_ns todo))%nat.
Proof.
  intros Hw. split.
  - intros [i j] H. apply in_pairs_over in H. apply in_pairs_over.
    destruct H as [Hin H]. split; [exact Hin |].
    now apply (partner_widen _ _ _ _ Hw).
  - unfold pairs_over. induction todo as [| i todo IH]; simpl; [lia |].
    destruct (partner s w offset_ns i _) as [j |] eqn:E.
    + rewrite (partner_widen _ _ _ _ Hw E). simpl. lia.
    + apply (Nat.le_trans _ _ _ IH).
      destruct (partner s w' offset_ns i _); simpl; auto.
Qed.

Lemma built_at_In_row (s : Arrays) (cs : list Coincidence)
    (ps : list (nat * nat)) (c : Coincidence) :
  built_at s cs ps -> In c cs ->
  exists p, In p ps /\ make_coinc s (fst p) (snd p) = Ok c.
Proof.
  induction 1 as [| c' p cs ps Hc _ IH]; simpl; [contradiction |].
  intros [<- | Hin].
  - exists p. split; [now left | exact Hc].
  - destruct (IH Hin) as (p' & Hp' & Hc'). exists p'.
    split; [now right | exact Hc'].
Qed.

Lemma built_at_In_position (s : Arrays) (cs : list Coincidence)
    (ps : list (nat * nat)) (p : nat * nat) :
  built_at s cs ps -> In p ps ->
  exists c, In c cs /\ make_coinc s (fst p) (snd p) = Ok c.
Proof.
  induction 1 as [| c p' cs ps Hc _ IH]; simpl; [contradiction |].
  intros [<- | Hin].
  - exists c. split; [now left | exact Hc].
  - destruct (IH Hin) as (c' & Hc' & Hp). exists c'.
    split; [now right | exact Hp].
Qed.

(** X7.  Widening the window only adds rows.  On a well-formed input, for
    windows [w <= w'] and the same offset, every row emitted with [w] is
    emitted with [w'], and the count does not decrease. *)
Theorem wider_window_keeps_rows (argsort : list Z -> list nat)
    (b : Branches) (w w' offset_ns : Z) :
  well_formed b = true ->
  is_argsort (GlobalTime b) (argsort (GlobalTime b)) = true ->
  w <= w' ->
  exists o o',
    sort_coincidences argsort b w offset_ns = Ok o
    /\ sort_coincidences argsort b w' offset_ns = Ok o'
    /\ incl (emitted o) (emitted o')
    /\ (returned o <= returned o')%nat.
Proof.
  intros Hwf Harg Hw.
  destruct (sort_coincidences_pairs argsort b w offset_ns Hwf Harg)
    as (s & o & Hs & Ho & Hfin & _ & _ & Hb).
  destruct (sort_coincidences_pairs argsort b w' offset_ns Hwf Harg)
    as (s' & o' & Hs' & Ho' & Hfin' & _ & _ & Hb').
  assert (s' = s) by congruence. subst s'.
  destruct (pairs_over_widen s offset_ns
              (seq 0 (length (times s) - 1)) Hw) as [Hincl Hlen].
  exists o, o'. split; [exact Ho |]. split; [exact Ho' |]. split.
  - intros c Hc.
    destruct (@built_at_In_row _ _ _ _ Hb Hc) as (p & Hp & Hmk).
    destruct (@built_at_In_position _ _ _ _ Hb' (Hincl p Hp))
      as (c' & Hc' & Hmk').
    congruence.
  - rewrite Hfin, Hfin'. simpl.
    rewrite (built_at_length Hb), (built_at_length Hb'). exact Hlen.
Qed.

Lemma wider_window_keeps_rows_witness :
  exists o o',
    sort_coincidences argsort_ties_kept boundary_scenario 119 0 = Ok o
    /\ sort_coincidences argsort_ties_kept boundary_scenario 121 0 = Ok o'
    /\ incl (emitted o) (emitted o')
    /\ (returned o <= returned o')%nat.
Proof.
  apply (wider_window_keeps_rows argsort_ties_kept boundary_scenario
           (w := 119) (w' := 121) 0); [reflexivity | reflexivity | lia].
Defined.

(** ** Sorting distinct keys *)

Lemma sorted_permutation_unique (l1 l2 : list Z) :
  StronglySorted Z.le l1 -> StronglySorted Z.le l2 ->
  Permutation l1 l2 -> l1 = l2.
Proof.
  intros H1. revert l2.
  induction H1 as [| x l1 Hl1 IH Hx]; intros l2 H2 Hp.
  - apply Permutation_nil in Hp. now subst.
  - destruct H2 as [| y l2 Hl2 Hy].
    + symmetry in Hp. apply Permutation_nil in Hp. discriminate.
    + assert (x = y).
      { rewrite Forall_forall in Hx, Hy.
        assert (Hxin : In x (y :: l2))
          by (apply (Permutation_in _ Hp); now left).
        assert (Hyin : In y (x :: l1))
          by (apply (Permutation_in _ (Permutation_sym Hp)); now left).
        destruct Hxin as [-> | Hxin]; [reflexivity |].
        destruct Hyin as [-> | Hyin]; [reflexivity |].
        specialize (Hx y Hyin). specialize (Hy x Hxin). lia. }
      subst y. f_equal. apply IH; [exact Hl2 |].
      now apply Permutation_cons_inv in Hp.
Qed.

Lemma map_nth_seq_id (A : Type) (d : A) (a : list A) :
  map (fun k => nth k a d) (seq 0 (length a)) = a.
Proof.
  apply (nth_ext _ _ d d).
  - now rewrite length_map, length_seq.
  - intros k Hk. rewrite length_map, length_seq in Hk.
    rewrite (nth_map_in _ _ 0%nat) by (rewrite length_seq; exact Hk).
    now rewrite seq_nth.
Qed.

Lemma map_nth_injective (a : list Z) (l1 l2 : list nat) :
  NoDup a ->
  Forall (fun k => (k < length a)%nat) l1 ->
  Forall (fun k => (k < length a)%nat) l2 ->
  map (fun k => nth k a 0) l1 = map (fun k => nth k a 0) l2 ->
  l1 = l2.
Proof.
  intros Hnd H1. revert l2.
  induction H1 as [| x l1 Hx _ IH]; intros l2 H2 Heq;
    destruct H2 as [| y l2 Hy H2]; simpl in Heq; try discriminate Heq.
  - reflexivity.
  - injection Heq as Hxy Heq. f_equal.
    + now apply (proj1 (NoDup_nth a 0) Hnd).
    + now apply IH.
Qed.

Lemma sorting_positions_unique (a : list Z) (idx1 idx2 : list nat) :
  NoDup a ->
  Permutation idx1 (seq 0 (length a)) ->
  StronglySorted Z.le (map (fun k => nth k a 0) idx1) ->
  Permutation idx2 (seq 0 (length a)) ->
  StronglySorted Z.le (map (fun k => nth k a 0) idx2) ->
  idx1 = idx2.
Proof.
  intros Hnd P1 S1 P2 S2.
  assert (Hb : forall idx, Permutation idx (seq 0 (length a)) ->
                 Forall (fun k => (k < length a)%nat) idx).
  { intros idx P. apply Forall_forall. intros k Hk.
    apply (Permutation_in _ P) in Hk. apply in_seq in Hk. lia. }
  apply (map_nth_injective Hnd); [now apply Hb | now apply Hb |].
  apply sorted_permutation_unique; [exact S1 | exact S2 |].
  apply (Permutation_map (fun k => nth k a 0)) in P1, P2.
  rewrite map_nth_seq_id in P1, P2.
  etransitivity; [exact P1 | now symmetry].
Qed.

(** ** The order of the rows in the singles file *)

Lemma map_nth_map (A B : Type) (f : A -> B) (l : list A) (idx : list nat)
    (d : A) (d' : B) :
  Forall (fun k => (k < length l)%nat) idx ->
  map (fun k => nth k (map f l) d') idx = map (fun k => f (nth k l d)) idx.
Proof.
  intros H. apply map_ext_in. intros k Hk.
  rewrite Forall_forall in H. now apply nth_map_in, H.
Qed.

Lemma map_nth_repeat (pi : list nat) (n : nat) :
  map (fun k => nth k (repeat 0 n) 0) pi = repeat 0 (length pi).
Proof.
  induction pi as [| k pi IH]; simpl; [reflexivity |].
  rewrite IH. f_equal.
  destruct (Nat.lt_ge_cases k n) as [Hk | Hk].
  - now apply nth_repeat_lt.
  - apply nth_overflow. now rewrite repeat_length.
Qed.

Lemma read_branches_permute_rows (pi : list nat) (b : Branches) :
  read_branches (permute_rows pi b) = reindex pi (read_branches b).
Proof.
  unfold read_branches, reindex, permute_rows. simpl. f_equal.
  destruct (RunID b) as [r |]; simpl; [reflexivity |].
  now rewrite map_nth_repeat, length_map.
Qed.

Lemma reindex_reindex (idx pi : list nat) (a : Arrays) :
  Forall (fun k => (k < length pi)%nat) idx ->
  reindex idx (reindex pi a)
  = reindex (map (fun k => nth k pi 0%nat) idx) a.
Proof.
  intros H. unfold reindex. simpl.
  rewrite !map_map, !(map_nth_map _ _ 0%nat 0 H). reflexivity.
Qed.

(** X9.  With pairwise distinct timestamps the order of the rows in the
    singles file is irrelevant: on a well-formed input, the run over the
    rows taken in any order [pi] is the run over the rows as they stand. *)
Theorem row_order_is_irrelevant (argsort : list Z -> list nat)
    (b : Branches) (pi : list nat) (time_window_ns offset_ns : Z) :
  well_formed b = true ->
  NoDup (GlobalTime b) ->
  is_permutation_of_range pi (length (GlobalTime b)) = true ->
  is_argsort (GlobalTime b) (argsort (GlobalTime b)) = true ->
  is_argsort (GlobalTime (permute_rows pi b))
    (argsort (GlobalTime (permute_rows pi b))) = true ->
  sort_coincidences argsort (permute_rows pi b) time_window_ns offset_ns
  = sort_coincidences argsort b time_window_ns offset_ns.
Proof.
  intros Hwf Hnd Hpi Harg Harg'.
  set (b' := permute_rows pi b) in *.
  set (idx' := argsort (GlobalTime b')) in *.
  assert (Hpilen : length pi = length (GlobalTime b)).
  { apply is_permutation_of_range_spec, Permutation_length in Hpi.
    now rewrite length_seq in Hpi. }
  assert (Hlen' : length (GlobalTime b') = length pi)
    by (unfold b'; simpl; apply length_map).
  assert (Hb' : Forall (fun k => (k < length pi)%nat) idx')
    by (rewrite <- Hlen'; now apply is_argsort_bound).
  assert (Hcomp : map (fun k => nth k pi 0%nat) idx'
                  = argsort (GlobalTime b)).
  { apply (sorting_positions_unique Hnd).
    - apply is_argsort_perm in Harg'. fold idx' in Harg'.
      rewrite Hlen' in Harg'.
      apply (Permutation_map (fun k => nth k pi 0%nat)) in Harg'.
      rewrite map_nth_seq_id in Harg'.
      etransitivity; [exact Harg' |].
      now apply is_permutation_of_range_spec.
    - rewrite map_map.
      rewrite <- (map_nth_map (fun k => nth k (GlobalTime b) 0) pi 0%nat 0 Hb').
      now apply is_argsort_sorted in Harg'.
    - now apply is_argsort_perm.
    - now apply is_argsort_sorted. }
  assert (Hs' : sorted_arrays argsort b'
                = Ok (reindex (argsort (GlobalTime b)) (read_branches b))).
  { unfold sorted_arrays.
    change (times (read_branches b')) with (GlobalTime b'). fold idx'.
    unfold b' at 1. rewrite read_branches_permute_rows.
    rewrite (sort_by_time_reindex (aligned_reindex pi (read_branches b)) Hb').
    now rewrite (@reindex_reindex idx' pi (read_branches b) Hb'), Hcomp. }
  destruct (sorted_arrays_reindex argsort b Hwf Harg) as (Hs & _).
  unfold sort_coincidences. now rewrite Hs, Hs'.
Qed.

Lemma row_order_is_irrelevant_witness :
  sort_coincidences argsort_ties_kept
    (permute_rows [2; 0; 1]%nat skip_scenario) 120 0
  = sort_coincidences argsort_ties_kept skip_scenario 120 0.
Proof.
  apply (@row_order_is_irrelevant argsort_ties_kept skip_scenario
           [2; 0; 1]%nat 120 0); try reflexivity.
  repeat constructor; simpl; intuition discriminate.
Defined.

(** * The verification scripts: proofs *)

(** ** Strings *)

Section PyFacts.

Import Ascii.

Lemma str_eqb_eq (a b : Py.str) : Py.str_eqb a b = true <-> a = b.
Proof.
  revert b. induction a as [| x a IH]; intros [| y b]; simpl;
    try (split; [discriminate | discriminate]); [tauto |].
  rewrite andb_true_iff, Ascii.eqb_eq, IH. split.
  - intros [-> ->]. reflexivity.
  - intros H. injection H as -> ->. tauto.
Qed.

Lemma str_eqb_refl (a : Py.str) : Py.str_eqb a a = true.
Proof. now apply str_eqb_eq. Qed.

Lemma str_eqb_neq (a b : Py.str) : Py.str_eqb a b = false <-> a <> b.
Proof.
  rewrite <- str_eqb_eq. destruct (Py.str_eqb a b); split; congruence.
Qed.

Lemma lstrip_spaces (l s : Py.str) :
  forallb Py.isspace l = true -> Py.lstrip (l ++ s) = Py.lstrip s.
Proof.
  induction l as [| c l IH]; simpl; [reflexivity |].
  intros H. apply andb_true_iff in H. destruct H as [-> H]. now apply IH.
Qed.

Lemma lstrip_head (c : ascii) (s : Py.str) :
  Py.isspace c = false -> Py.lstrip (c :: s) = c :: s.
Proof. simpl. now intros ->. Qed.

(** What [lstrip] removes is whitespace, and what it leaves does not start
    with whitespace. *)
Lemma lstrip_split (s : Py.str) :
  exists l,
    s = l ++ Py.lstrip s /\ forallb Py.isspace l = true
    /\ match Py.lstrip s with
       | [] => True
       | c :: _ => Py.isspace c = false
       end.
Proof.
  induction s as [| c s (l & Hs & Hl & Hh)]; simpl.
  - exists []. repeat split.
  - destruct (Py.isspace c) eqn:E.
    + exists (c :: l). simpl. rewrite E, Hl. repeat split; [| exact Hh].
      now f_equal.
    + exists []. repeat split. exact E.
Qed.

Lemma forallb_rev (A : Type) (f : A -> bool) (l : list A) :
  forallb f l = true -> forallb f (rev l) = true.
Proof.
  rewrite !forallb_forall. intros H x Hx. apply H. now apply in_rev.
Qed.

Lemma rstrip_split (s : Py.str) :
  exists r,
    s = Py.rstrip s ++ r /\ forallb Py.isspace r = true
    /\ (Py.rstrip s = []
        \/ exists s2 c, Py.rstrip s = s2 ++ [c] /\ Py.isspace c = false).
Proof.
  unfold Py.rstrip. destruct (lstrip_split (rev s)) as (l & Hs & Hl & Hh).
  exists (rev l). split; [| split].
  - rewrite <- rev_app_distr, <- Hs. symmetry. apply rev_involutive.
  - now apply forallb_rev.
  - destruct (Py.lstrip (rev s)) as [| c t]; [now left | right].
    exists (rev t), c. split; [reflexivity | exact Hh].
Qed.

Lemma rstrip_spaces (s r : Py.str) :
  forallb Py.isspace r = true -> Py.rstrip (s ++ r) = Py.rstrip s.
Proof.
  intros H. unfold Py.rstrip. rewrite rev_app_distr.
  rewrite lstrip_spaces by now apply forallb_rev. reflexivity.
Qed.

Lemma rstrip_last (s : Py.str) (c : ascii) :
  Py.isspace c = false -> Py.rstrip (s ++ [c]) = s ++ [c].
Proof.
  intros H. unfold Py.rstrip. rewrite rev_app_distr. simpl.
  rewrite H. simpl. now rewrite rev_involutive.
Qed.

Lemma rstrip_cons (x : ascii) (s : Py.str) :
  Py.rstrip s <> [] -> Py.rstrip (x :: s) = x :: Py.rstrip s.
Proof.
  intros Hne. destruct (rstrip_split s) as (r & Hs & Hr & Hshape).
  destruct Hshape as [H | (s2 & c & H & Hc)]; [contradiction |].
  rewrite Hs at 1. rewrite app_comm_cons, rstrip_spaces by exact Hr.
  rewrite H, app_comm_cons. now apply rstrip_last.
Qed.

Lemma clean_shape (s : Py.str) :
  Py.clean s = true -> s <> [] ->
  exists c s1 c' s2,
    s = c :: s1 /\ Py.isspace c = false
    /\ s = s2 ++ [c'] /\ Py.isspace c' = false.
Proof.
  destruct s as [| c s1]; [congruence |]. intros H _.
  unfold Py.clean in H. apply andb_true_iff in H. destruct H as [H1 H2].
  apply negb_true_iff in H1, H2.
  exists c, s1, (last (c :: s1) c), (removelast (c :: s1)).
  repeat split; try assumption.
  apply app_removelast_last. discriminate.
Qed.

(** Whitespace around a text that has none at its ends is all that
    [strip] removes. *)
Lemma strip_padded (l s r s1 s2 : Py.str) (c c' : ascii) :
  forallb Py.isspace l = true -> forallb Py.isspace r = true ->
  s = c :: s1 -> Py.isspace c = false ->
  s = s2 ++ [c'] -> Py.isspace c' = false ->
  Py.strip (l ++ s ++ r) = s.
Proof.
  intros Hl Hr H1 Hc H2 Hc'. unfold Py.strip.
  rewrite app_assoc, rstrip_spaces by exact Hr.
  rewrite H2, app_assoc, rstrip_last by exact Hc'.
  rewrite <- app_assoc, <- H2.
  rewrite lstrip_spaces by exact Hl. rewrite H1. now apply lstrip_head.
Qed.

Lemma strip_clean_padded (l s r : Py.str) :
  forallb Py.isspace l = true -> forallb Py.isspace r = true ->
  Py.clean s = true -> s <> [] ->
  Py.strip (l ++ s ++ r) = s.
Proof.
  intros Hl Hr Hs Hne.
  destruct (clean_shape Hs Hne) as (c & s1 & c' & s2 & H1 & Hc & H2 & Hc').
  now apply (@strip_padded l s r s1 s2 c c').
Qed.

Lemma contains_app (c : ascii) (a b : Py.str) :
  Py.contains c (a ++ b) = Py.contains c a || Py.contains c b.
Proof. apply existsb_app. Qed.

Lemma split_once_app (c : ascii) (a b : Py.str) :
  Py.contains c a = false ->
  Py.split_once c (a ++ c :: b) = (a, b).
Proof.
  induction a as [| x a IH]; simpl.
  - intros _. now rewrite Ascii.eqb_refl.
  - intros H. apply orb_false_iff in H. destruct H as [Hx Ha].
    rewrite Ascii.eqb_sym, Hx, (IH Ha). reflexivity.
Qed.

(** The first character [strip] leaves is the first [lstrip] leaves. *)
Lemma strip_head (s : Py.str) :
  Py.strip s = []
  \/ exists c t t', Py.strip s = c :: t /\ Py.lstrip s = c :: t'.
Proof.
  destruct (rstrip_split s) as (r & Hs & Hr & _).
  unfold Py.strip. destruct (lstrip_split (Py.rstrip s)) as (l & Hl & Hsp & _).
  destruct (Py.lstrip (Py.rstrip s)) as [| c t] eqn:E; [now left | right].
  exists c, t, (t ++ r). split; [reflexivity |].
  rewrite Hs at 1. rewrite Hl, <- app_assoc, lstrip_spaces by exact Hsp.
  simpl. destruct (lstrip_split (Py.rstrip s)) as (l' & _ & _ & Hh).
  rewrite E in Hh. now rewrite Hh.
Qed.

End PyFacts.

(** ** The statistics file *)

Section StatFileFacts.

Import Ascii String.

Variable F : Type.
Variable int_of_str : Py.str -> option Z.
Variable float_of_str : Py.str -> option F.
Variable float_zero : F.

Lemma read_line_entry (key text : Py.str) (raw : StatFile.dict F) :
  StatFile.plain_line (StatFile.Entry key text) = true ->
  StatFile.read_line int_of_str float_of_str raw (StatFile.stat_line key text)
  = StatFile.dict_set key (StatFile.convert int_of_str float_of_str text) raw.
Proof.
  simpl. intros H.
  apply andb_true_iff in H. destruct H as [H _].
  apply andb_true_iff in H. destruct H as [H _].
  apply andb_true_iff in H. destruct H as [H Hne].
  apply andb_true_iff in H. destruct H as [H Heq].
  apply andb_true_iff in H. destruct H as [Hk Ht].
  apply negb_true_iff in Heq.
  assert (Hkne : key <> []) by (destruct key; [discriminate | congruence]).
  assert (Htne : text <> [])
    by (destruct key, text; try discriminate; congruence).
  destruct (clean_shape Ht Htne) as (_ & _ & c' & t2 & _ & _ & Ht2 & Hc').
  destruct (clean_shape Hk Hkne) as (ck & k1 & _ & _ & Hk1 & Hck & _ & _).
  set (body := key ++ " "%char :: "="%char :: " "%char :: text).
  assert (Hlast : body = (key ++ " "%char :: "="%char :: " "%char :: t2)
                         ++ [c']).
  { unfold body. rewrite Ht2 at 1. rewrite <- app_assoc. reflexivity. }
  assert (E0 : StatFile.stat_line key text
               = [] ++ ("#"%char :: " "%char :: body) ++ ["010"%char]).
  { unfold StatFile.stat_line, body. simpl. rewrite <- app_assoc.
    reflexivity. }
  assert (E1 : Py.strip (StatFile.stat_line key text)
               = "#"%char :: " "%char :: body).
  { rewrite E0.
    apply (@strip_padded [] _ _ (" "%char :: body)
             ("#"%char :: " "%char :: key
                ++ " "%char :: "="%char :: " "%char :: t2) "#"%char c');
      try reflexivity; [| exact Hc'].
    rewrite Hlast. reflexivity. }
  assert (E2 : Py.strip body = body).
  { rewrite <- (app_nil_r body) at 1.
    apply (@strip_padded [] _ [] (k1 ++ " "%char :: "="%char :: " "%char :: text)
             (key ++ " "%char :: "="%char :: " "%char :: t2) ck c');
      try reflexivity; try assumption.
    unfold body. now rewrite Hk1. }
  assert (E3 : body = (key ++ [" "%char]) ++ "="%char :: " "%char :: text)
    by (unfold body; now rewrite <- app_assoc).
  assert (Hnk : Py.contains "="%char (key ++ [" "%char]) = false)
    by (rewrite contains_app, Heq; reflexivity).
  assert (E4 : Py.contains "="%char body = true).
  { rewrite E3, contains_app. simpl. apply orb_true_r. }
  assert (E5 : Py.strip (key ++ [" "%char]) = key)
    by now apply (@strip_clean_padded [] key [" "%char]).
  assert (E6 : Py.strip (" "%char :: text) = text).
  { rewrite <- (app_nil_r text) at 1.
    now apply (@strip_clean_padded [" "%char] text []). }
  unfold StatFile.read_line. rewrite E1.
  cbn [orb negb Py.startswith Py.lit list_ascii_of_string Ascii.eqb
       Bool.eqb andb skipn].
  rewrite E2, E4. rewrite E3 at 1. rewrite split_once_app by exact Hnk.
  now rewrite E5, E6.
Qed.

Lemma dict_get_set (k k' : Py.str) (d v : StatFile.value F)
    (raw : StatFile.dict F) :
  StatFile.dict_get k d (StatFile.dict_set k' v raw)
  = if Py.str_eqb k k' then v else StatFile.dict_get k d raw.
Proof.
  induction raw as [| [k0 v0] raw IH]; simpl; [reflexivity |].
  destruct (Py.str_eqb k' k0) eqn:E'; simpl.
  - apply str_eqb_eq in E'. subst k0.
    now destruct (Py.str_eqb k k').
  - rewrite IH. destruct (Py.str_eqb k k0) eqn:E0; [| reflexivity].
    apply str_eqb_eq in E0. subst k0.
    destruct (Py.str_eqb k k') eqn:E; [| reflexivity].
    apply str_eqb_eq in E. subst k'. rewrite str_eqb_refl in E'.
    discriminate E'.
Qed.

Lemma lstrip_line (body : Py.str) :
  match Py.lstrip body with
  | [] => Py.lstrip (body ++ ["010"%char]) = []
  | c :: t => Py.lstrip (body ++ ["010"%char]) = c :: t ++ ["010"%char]
  end.
Proof.
  induction body as [| x body IH]; [reflexivity |].
  cbn [Py.lstrip app]. destruct (Py.isspace x); [exact IH | reflexivity].
Qed.

(** A line whose first non-blank character is not the comment mark is
    skipped. *)
Lemma read_line_free_text (body : Py.str) (raw : StatFile.dict F) :
  StatFile.plain_line (StatFile.FreeText body) = true ->
  StatFile.read_line int_of_str float_of_str raw (body ++ ["010"%char])
  = raw.
Proof.
  simpl. intros H. apply andb_true_iff in H. destruct H as [_ H].
  unfold StatFile.read_line.
  destruct (strip_head (body ++ ["010"%char]))
    as [-> | (c & t & t' & -> & Hl)]; [reflexivity |].
  pose proof (lstrip_line body) as E.
  destruct (Py.lstrip body) as [| c0 t0]; rewrite Hl in E;
    [discriminate E |].
  injection E as -> _. apply negb_true_iff in H.
  cbn [Py.startswith Py.lit list_ascii_of_string orb].
  rewrite Ascii.eqb_sym, H. reflexivity.
Qed.

Lemma fold_read_line (lines : list StatFile.file_line)
    (raw : StatFile.dict F) (k : Py.str) (d : StatFile.value F) :
  forallb StatFile.plain_line lines = true ->
  StatFile.dict_get k d
    (fold_left (StatFile.read_line int_of_str float_of_str)
       (map StatFile.line_text lines) raw)
  = match StatFile.last_text k lines with
    | Some text => StatFile.convert int_of_str float_of_str text
    | None => StatFile.dict_get k d raw
    end.
Proof.
  revert raw. induction lines as [| l lines IH]; intros raw H;
    [reflexivity |].
  simpl in H. apply andb_true_iff in H. destruct H as [Hl H].
  cbn [map fold_left StatFile.last_text]. rewrite (IH _ H).
  destruct (StatFile.last_text k lines) as [t |]; [reflexivity |].
  destruct l as [key text | body]; cbn [StatFile.line_text].
  - rewrite read_line_entry by exact Hl. rewrite dict_get_set.
    now destruct (Py.str_eqb k key).
  - now rewrite read_line_free_text by exact Hl.
Qed.

(** The lines of a file written line by line are the lines written. *)
Lemma universal_newlines_line (body rest : Py.str) :
  Py.contains "013"%char body = false ->
  StatFile.universal_newlines (body ++ "010"%char :: rest)
  = body ++ "010"%char :: StatFile.universal_newlines rest.
Proof.
  induction body as [| x body IH]; intros H; [reflexivity |].
  unfold Py.contains in H. cbn [existsb] in H.
  apply orb_false_iff in H. destruct H as [Hx H].
  rewrite Ascii.eqb_sym in Hx.
  cbn [app StatFile.universal_newlines]. rewrite Hx, (IH H). reflexivity.
Qed.

Lemma file_lines_line (body rest : Py.str) :
  Py.contains "010"%char body = false ->
  StatFile.file_lines (body ++ "010"%char :: rest)
  = (body ++ ["010"%char]) :: StatFile.file_lines rest.
Proof.
  induction body as [| x body IH]; intros H; [reflexivity |].
  unfold Py.contains in H. cbn [existsb] in H.
  apply orb_false_iff in H. destruct H as [Hx H].
  rewrite Ascii.eqb_sym in Hx.
  cbn [app StatFile.file_lines]. rewrite Hx, (IH H). reflexivity.
Qed.

Lemma one_line_app (a b : Py.str) :
  StatFile.one_line (a ++ b)
  = StatFile.one_line a && StatFile.one_line b.
Proof.
  unfold StatFile.one_line. rewrite !contains_app.
  destruct (Py.contains "010"%char a), (Py.contains "013"%char a),
    (Py.contains "010"%char b), (Py.contains "013"%char b); reflexivity.
Qed.

Lemma line_text_body (l : StatFile.file_line) :
  StatFile.plain_line l = true ->
  exists body,
    StatFile.line_text l = body ++ ["010"%char]
    /\ StatFile.one_line body = true.
Proof.
  destruct l as [key text | body]; simpl; intros H.
  - apply andb_true_iff in H. destruct H as [H Ht].
    apply andb_true_iff in H. destruct H as [_ Hk].
    exists (Py.lit "# " ++ key ++ Py.lit " = " ++ text). split.
    + unfold StatFile.stat_line. now rewrite <- !app_assoc.
    + rewrite !one_line_app, Hk, Ht. reflexivity.
  - apply andb_true_iff in H. destruct H as [H _].
    exists body. split; [reflexivity | exact H].
Qed.

Lemma file_lines_file_text (lines : list StatFile.file_line) :
  forallb StatFile.plain_line lines = true ->
  StatFile.file_lines
    (StatFile.universal_newlines (StatFile.file_text lines))
  = map StatFile.line_text lines.
Proof.
  induction lines as [| l lines IH]; intros H; [reflexivity |].
  simpl in H. apply andb_true_iff in H. destruct H as [Hl H].
  destruct (line_text_body l Hl) as (body & E & Hb).
  unfold StatFile.one_line in Hb. apply andb_true_iff in Hb.
  destruct Hb as [Hn Hr]. apply negb_true_iff in Hn, Hr.
  unfold StatFile.file_text in *. cbn [map]. rewrite concat_cons, E.
  rewrite <- app_assoc. cbn [app].
  rewrite universal_newlines_line by exact Hr.
  rewrite file_lines_line by exact Hn.
  now rewrite (IH H).
Qed.


Lemma spaces_have_no_text (r : Py.str) :
  forallb Py.isspace r = true ->
  existsb (fun c => negb (Py.isspace c)) r = false.
Proof.
  induction r as [| c r IH]; simpl; [reflexivity |].
  intros H. apply andb_true_iff in H. destruct H as [-> H]. now apply IH.
Qed.

Lemma strip_comment_line (c : ascii) (body : Py.str) :
  existsb (fun x => negb (Py.isspace x)) body = true ->
  Py.strip ("#"%char :: c :: body) = "#"%char :: c :: Py.rstrip body.
Proof.
  intros H.
  assert (Hne : Py.rstrip body <> []).
  { destruct (rstrip_split body) as (r & Hb & Hr & _). intros E.
    rewrite E in Hb. simpl in Hb. subst r.
    rewrite spaces_have_no_text in H by exact Hr. discriminate H. }
  unfold Py.strip.
  rewrite rstrip_cons by (rewrite rstrip_cons by exact Hne; discriminate).
  rewrite rstrip_cons by exact Hne. reflexivity.
Qed.

(** X10.  A statistics file is read back as it was written.  Take a file
    whose text is, line after line and each with its line feed, entries
    [# key = text] (key and text without whitespace at their ends and
    without a line break, neither empty, no [=] in the key) and lines
    without a line break whose first non-blank character is not [#].
    Then every lookup in [raw_data] gives the converted text of the last
    entry for that key, or the default when there is none; the seven
    fields of the result are these lookups, and [track_types] is empty. *)
Theorem stat_file_read_back (lines : list StatFile.file_line) :
  forallb StatFile.plain_line lines = true ->
  exists st,
    StatFile.read_gate9_stat_file int_of_str float_of_str float_zero
      (Some (StatFile.file_text lines)) = Some st
    /\ (forall key default,
          StatFile.dict_get key default (StatFile.raw_data st)
          = StatFile.looked_up int_of_str float_of_str lines key default)
    /\ StatFile.runs st
       = StatFile.looked_up int_of_str float_of_str lines
           (Py.lit "NumberOfRun") (StatFile.PyInt F 0)
    /\ StatFile.events st
       = StatFile.looked_up int_of_str float_of_str lines
           (Py.lit "NumberOfEvents") (StatFile.PyInt F 0)
    /\ StatFile.tracks st
       = StatFile.looked_up int_of_str float_of_str lines
           (Py.lit "NumberOfTracks") (StatFile.PyInt F 0)
    /\ StatFile.steps st
       = StatFile.looked_up int_of_str float_of_str lines
           (Py.lit "NumberOfSteps") (StatFile.PyInt F 0)
    /\ StatFile.pps st
       = StatFile.looked_up int_of_str float_of_str lines
           (Py.lit "PPS (Primary per sec)") (StatFile.PyFloat float_zero)
    /\ StatFile.tps st
       = StatFile.looked_up int_of_str float_of_str lines
           (Py.lit "TPS (Track per sec)") (StatFile.PyFloat float_zero)
    /\ StatFile.sps st
       = StatFile.looked_up int_of_str float_of_str lines
           (Py.lit "SPS (Step per sec)") (StatFile.PyFloat float_zero)
    /\ StatFile.track_types st = [].
Proof.
  intros H. eexists. split; [reflexivity |].
  unfold StatFile.looked_up. cbn [StatFile.raw_data StatFile.runs
    StatFile.events StatFile.tracks StatFile.steps StatFile.pps
    StatFile.tps StatFile.sps StatFile.track_types].
  rewrite (file_lines_file_text lines H).
  repeat split; intros; now rewrite fold_read_line by exact H.
Qed.

(** X11.  The character after the comment mark is never read: two lines
    that start with [#] and differ only in their second character are
    read alike, as soon as something other than whitespace follows.  (So
    [#NumberOfRun = 1] sets the key [umberOfRun].) *)
Theorem character_after_comment_mark_is_dropped (raw : StatFile.dict F)
    (c1 c2 : ascii) (body : Py.str) :
  existsb (fun x => negb (Py.isspace x)) body = true ->
  StatFile.read_line int_of_str float_of_str raw ("#"%char :: c1 :: body)
  = StatFile.read_line int_of_str float_of_str raw ("#"%char :: c2 :: body).
Proof.
  intros H. unfold StatFile.read_line.
  now rewrite !strip_comment_line by exact H.
Qed.

End StatFileFacts.

(** ** The command line *)

Section Test004Facts.

Import Ascii String.

Variable F : Type.
Variable float_of_str : Py.str -> option F.
Variable default_tolerance : F.

Lemma parse_args_other (w : Py.str) (l : list Py.str)
    (o : Test004.Options F) :
  Test004.is_option_word w = false ->
  Test004.parse_args float_of_str (w :: l) o
  = Test004.parse_args float_of_str l o.
Proof.
  unfold Test004.is_option_word. intros H.
  apply orb_false_iff in H. destruct H as [H H4].
  apply orb_false_iff in H. destruct H as [H H3].
  apply orb_false_iff in H. destruct H as [H1 H2].
  destruct l as [| v l]; cbn [Test004.parse_args];
    now rewrite ?H1, ?H2, ?H3, ?H4.
Qed.

Lemma parse_args_track_types (l : list Py.str) (o : Test004.Options F) :
  Test004.parse_args float_of_str (Py.lit "--track-types" :: l) o
  = Test004.parse_args float_of_str l
      {| Test004.stat_file := Test004.stat_file o;
         Test004.ref_file := Test004.ref_file o;
         Test004.tolerance := Test004.tolerance o;
         Test004.track_types_flag := true |}.
Proof. destruct l; reflexivity. Qed.

Lemma parse_args_items (items : list Test004.item) (rest : list Py.str)
    (o : Test004.Options F) :
  forallb Test004.well_formed_item items = true ->
  Test004.parse_args float_of_str (Test004.command_line items ++ rest) o
  = match Test004.apply_items float_of_str items o with
    | Test004.Return o' => Test004.parse_args float_of_str rest o'
    | Test004.Raised e => Test004.Raised e
    end.
Proof.
  revert o. induction items as [| i items IH]; intros o H; [reflexivity |].
  simpl in H. apply andb_true_iff in H. destruct H as [Hi H].
  unfold Test004.command_line in *. cbn [flat_map].
  rewrite <- app_assoc.
  destruct i as [f | f | t | | w]; cbn [Test004.words app Test004.apply_items].
  - apply IH, H.
  - apply IH, H.
  - simpl. destruct (float_of_str t); [apply IH, H | reflexivity].
  - rewrite parse_args_track_types. apply IH, H.
  - rewrite parse_args_other by (now apply negb_true_iff). apply IH, H.
Qed.


(** X12.  A command line made of [--stat f], [--ref f], [--tolerance t],
    [--track-types] and words that are none of these four is read item by
    item, from left to right: a value is taken as it stands, even when it
    looks like an option; a later option overrides an earlier one; the
    other words are skipped; and a tolerance that [float()] rejects
    raises [ValueError]. *)
Theorem command_line_read_item_by_item (items : list Test004.item)
    (o : Test004.Options F) :
  forallb Test004.well_formed_item items = true ->
  Test004.parse_args float_of_str (Test004.command_line items) o
  = Test004.apply_items float_of_str items o.
Proof.
  intros H. rewrite <- (app_nil_r (Test004.command_line items)).
  rewrite parse_args_items by exact H.
  now destruct (Test004.apply_items float_of_str items o).
Qed.

(** X13.  An option that needs a value and comes last, without one, is
    passed over without any complaint: adding [--stat], [--ref] or
    [--tolerance] at the end of a command line changes nothing. *)
Theorem option_without_value_is_ignored (items : list Test004.item)
    (w : Py.str) (o : Test004.Options F) :
  forallb Test004.well_formed_item items = true ->
  In w [Py.lit "--stat"; Py.lit "--ref"; Py.lit "--tolerance"] ->
  Test004.parse_args float_of_str (Test004.command_line items ++ [w]) o
  = Test004.parse_args float_of_str (Test004.command_line items) o.
Proof.
  intros H Hw.
  rewrite <- (app_nil_r (Test004.command_line items)) at 2.
  rewrite !parse_args_items by exact H.
  destruct (Test004.apply_items float_of_str items o) as [o' | e];
    [| reflexivity].
  destruct Hw as [<- | [<- | [<- | []]]]; reflexivity.
Qed.

Lemma list_pairs_ind (A : Type) (P : list A -> Prop) :
  P [] -> (forall a, P [a]) ->
  (forall a v l, P l -> P (v :: l) -> P (a :: v :: l)) ->
  forall l, P l.
Proof.
  intros H0 H1 H2 l.
  assert (H : P l /\ forall a, P (a :: l)); [| tauto].
  induction l as [| v l [IH1 IH2]]; split; auto.
Qed.

Lemma parse_args_without_tolerance (args : list Py.str)
    (o : Test004.Options F) :
  ~ In (Py.lit "--tolerance") args ->
  exists o',
    Test004.parse_args float_of_str args o = Test004.Return o'
    /\ Test004.tolerance o' = Test004.tolerance o.
Proof.
  revert o. induction args as [| a | a v l IHl IHvl] using list_pairs_ind;
    intros o Hno.
  - exists o. split; reflexivity.
  - cbn [Test004.parse_args].
    destruct (Py.str_eqb a (Py.lit "--track-types")); eexists;
      split; reflexivity.
  - assert (Ha : Py.str_eqb a (Py.lit "--tolerance") = false).
    { apply str_eqb_neq. intros ->. apply Hno. now left. }
    assert (Hl : ~ In (Py.lit "--tolerance") l)
      by (intros Hin; apply Hno; now right; right).
    assert (Hvl : ~ In (Py.lit "--tolerance") (v :: l))
      by (intros Hin; apply Hno; now right).
    cbn [Test004.parse_args]. rewrite Ha.
    destruct (Py.str_eqb a (Py.lit "--stat"));
      [| destruct (Py.str_eqb a (Py.lit "--ref"));
         [| destruct (Py.str_eqb a (Py.lit "--track-types"))]].
    + destruct (IHl {| Test004.stat_file := v;
                       Test004.ref_file := Test004.ref_file o;
                       Test004.tolerance := Test004.tolerance o;
                       Test004.track_types_flag :=
                         Test004.track_types_flag o |} Hl)
        as (o' & E & Ht).
      exists o'. split; assumption.
    + destruct (IHl {| Test004.stat_file := Test004.stat_file o;
                       Test004.ref_file := Some v;
                       Test004.tolerance := Test004.tolerance o;
                       Test004.track_types_flag :=
                         Test004.track_types_flag o |} Hl)
        as (o' & E & Ht).
      exists o'. split; assumption.
    + destruct (IHvl {| Test004.stat_file := Test004.stat_file o;
                        Test004.ref_file := Test004.ref_file o;
                        Test004.tolerance := Test004.tolerance o;
                        Test004.track_types_flag := true |} Hvl)
        as (o' & E & Ht).
      exists o'. split; assumption.
    + apply IHvl, Hvl.
Qed.

(** The fields an option word would set keep their value when the word is
    not on the command line. *)
Lemma parse_args_untouched (args : list Py.str)
    (o o' : Test004.Options F) :
  Test004.parse_args float_of_str args o = Test004.Return o' ->
  (~ In (Py.lit "--stat") args ->
   Test004.stat_file o' = Test004.stat_file o)
  /\ (~ In (Py.lit "--ref") args ->
      Test004.ref_file o' = Test004.ref_file o)
  /\ (~ In (Py.lit "--track-types") args ->
      Test004.track_types_flag o' = Test004.track_types_flag o).
Proof.
  revert o. induction args as [| a | a v l IHl IHvl] using list_pairs_ind;
    intros o.
  - intros E. injection E as <-. repeat split.
  - cbn [Test004.parse_args].
    destruct (Py.str_eqb a (Py.lit "--track-types")) eqn:Ea;
      intros E; injection E as <-; repeat split; intros Hno;
      try reflexivity.
    exfalso. apply Hno. left. now apply str_eqb_eq.
  - cbn [Test004.parse_args].
    destruct (Py.str_eqb a (Py.lit "--stat")) eqn:E1;
      [| destruct (Py.str_eqb a (Py.lit "--ref")) eqn:E2;
         [| destruct (Py.str_eqb a (Py.lit "--tolerance")) eqn:E3;
            [| destruct (Py.str_eqb a (Py.lit "--track-types")) eqn:E4]]].
    + apply str_eqb_eq in E1. subst a. intros E.
      destruct (IHl _ E) as (_ & H2 & H3). cbn in H2, H3.
      split; [intros Hno; exfalso; apply Hno; now left |].
      split; intros Hno; [apply H2 | apply H3];
        intros Hin; apply Hno; now right; right.
    + apply str_eqb_eq in E2. subst a. intros E.
      destruct (IHl _ E) as (H1 & _ & H3). cbn in H1, H3.
      split; [| split; [intros Hno; exfalso; apply Hno; now left |]];
        intros Hno; [apply H1 | apply H3];
        intros Hin; apply Hno; now right; right.
    + destruct (float_of_str v) as [t |]; [| discriminate]. intros E.
      destruct (IHl _ E) as (H1 & H2 & H3). cbn in H1, H2, H3.
      repeat split; intros Hno; [apply H1 | apply H2 | apply H3];
        intros Hin; apply Hno; now right; right.
    + apply str_eqb_eq in E4. subst a. intros E.
      destruct (IHvl _ E) as (H1 & H2 & _). cbn in H1, H2.
      split; [| split; [| intros Hno; exfalso; apply Hno; now left]];
        intros Hno; [apply H1 | apply H2];
        intros Hin; apply Hno; now right.
    + intros E. destruct (IHvl _ E) as (H1 & H2 & H3).
      repeat split; intros Hno; [apply H1 | apply H2 | apply H3];
        intros Hin; apply Hno; now right.
Qed.

(** X14.  Defaults of the options.  Without the word [--tolerance] on the
    command line the loop cannot fail and the tolerance stays at its
    default.  Whenever the options are returned, a reference file is set;
    and without the word [--stat], [--ref] or [--track-types] the
    statistics file, the reference file or the flag is the default one. *)
Theorem main_options_defaults (argv_tail : list Py.str) :
  (~ In (Py.lit "--tolerance") argv_tail ->
   exists o,
     Test004.main_options float_of_str default_tolerance argv_tail
     = Test004.Return o
     /\ Test004.tolerance o = default_tolerance)
  /\ (forall o,
        Test004.main_options float_of_str default_tolerance argv_tail
        = Test004.Return o ->
        Test004.ref_file o <> None
        /\ (~ In (Py.lit "--stat") argv_tail ->
            Test004.stat_file o = Py.lit "stat004_simple.txt")
        /\ (~ In (Py.lit "--ref") argv_tail ->
            Test004.ref_file o = Some (Py.lit "stat004_simple_ref.txt"))
        /\ (~ In (Py.lit "--track-types") argv_tail ->
            Test004.track_types_flag o = false)).
Proof.
  unfold Test004.main_options. split.
  - intros Hno.
    destruct (@parse_args_without_tolerance argv_tail
                (Test004.defaults default_tolerance) Hno) as (o' & E & Ht).
    rewrite E. eexists. split; [reflexivity | exact Ht].
  - intros o.
    destruct (Test004.parse_args float_of_str argv_tail
                (Test004.defaults default_tolerance)) as [o' | e] eqn:E;
      [| discriminate].
    intros Ho. injection Ho as <-.
    destruct (@parse_args_untouched _ _ _ E) as (H1 & H2 & H3).
    cbn [Test004.ref_file Test004.stat_file Test004.track_types_flag].
    split; [destruct (Test004.ref_file o'); discriminate |].
    split; [exact H1 |]. split; [| exact H3].
    intros Hno. now rewrite (H2 Hno).
Qed.

End Test004Facts.

(** ** The same, on examples *)

Section ScriptExamples.

Import Ascii String.

Lemma stat_file_read_back_witness :
  exists st,
    StatFile.read_gate9_stat_file Demo.int_of_str Demo.float_of_str
      (Py.lit "0.0")
      (Some (StatFile.file_text Demo.stat_file_example)) = Some st
    /\ StatFile.runs st = StatFile.PyInt Py.str 1
    /\ StatFile.events st = StatFile.PyInt Py.str 6000
    /\ StatFile.tracks st = StatFile.PyInt Py.str 0
    /\ StatFile.pps st = StatFile.PyFloat (Py.lit "12.5").
Proof.
  destruct (@stat_file_read_back Py.str Demo.int_of_str Demo.float_of_str
              (Py.lit "0.0") Demo.stat_file_example eq_refl)
    as (st & E & _ & Hruns & Hevents & Htracks & _ & Hpps & _).
  exists st. split; [exact E |].
  rewrite Hruns, Hevents, Htracks, Hpps. repeat split.
Defined.

Lemma character_after_comment_mark_is_dropped_witness :
  StatFile.read_line Demo.int_of_str Demo.float_of_str []
    (Py.lit "#NumberOfRun = 1")
  = StatFile.read_line Demo.int_of_str Demo.float_of_str []
      (Py.lit "# umberOfRun = 1").
Proof.
  apply (@character_after_comment_mark_is_dropped Py.str Demo.int_of_str
           Demo.float_of_str [] "N"%char " "%char
           (Py.lit "umberOfRun = 1")).
  reflexivity.
Defined.

Lemma command_line_read_item_by_item_witness :
  Test004.parse_args Demo.float_of_str
    (map Py.lit ["--stat"; "--ref"; "x"; "--tolerance"; "0.5";
                 "--track-types"]%string)
    (Test004.defaults (Py.lit "0.01"))
  = Test004.Return
      {| Test004.stat_file := Py.lit "--ref";
         Test004.ref_file := None;
         Test004.tolerance := Py.lit "0.5";
         Test004.track_types_flag := true |}.
Proof.
  apply (@command_line_read_item_by_item Py.str Demo.float_of_str
           [Test004.StatOption (Py.lit "--ref"); Test004.Other (Py.lit "x");
            Test004.ToleranceOption (Py.lit "0.5"); Test004.TrackTypes]
           (Test004.defaults (Py.lit "0.01"))).
  reflexivity.
Defined.

Lemma option_without_value_is_ignored_witness :
  Test004.parse_args Demo.float_of_str
    (Test004.command_line [Test004.StatOption (Py.lit "a.txt")]
     ++ [Py.lit "--ref"])
    (Test004.defaults (Py.lit "0.01"))
  = Test004.parse_args Demo.float_of_str
      (Test004.command_line [Test004.StatOption (Py.lit "a.txt")])
      (Test004.defaults (Py.lit "0.01")).
Proof.
  apply (@option_without_value_is_ignored Py.str Demo.float_of_str
           [Test004.StatOption (Py.lit "a.txt")] (Py.lit "--ref")).
  - reflexivity.
  - right. left. reflexivity.
Defined.

Lemma main_options_defaults_witness :
  exists o,
    Test004.main_options Demo.float_of_str (Py.lit "0.01")
      [Py.lit "--stat"; Py.lit "a.txt"] = Test004.Return o
    /\ Test004.tolerance o = Py.lit "0.01"
    /\ Test004.ref_file o = Some (Py.lit "stat004_simple_ref.txt")
    /\ Test004.track_types_flag o = false.
Proof.
  destruct (@main_options_defaults Py.str Demo.float_of_str (Py.lit "0.01")
              [Py.lit "--stat"; Py.lit "a.txt"]) as [Htol Hret].
  destruct Htol as (o & E & Ht).
  { simpl. intros [H | [H | []]]; discriminate H. }
  exists o. split; [exact E |]. split; [exact Ht |].
  destruct (Hret o E) as (_ & _ & Href & Hflag).
  split; [apply Href | apply Hflag];
    simpl; intros [H | [H | []]]; discriminate H.
Defined.

End ScriptExamples.
